(** * Slippi launcher: the Dolphin instance manager and the installation check

    A shallow embedding of [src/main/dolphinManager.ts] (class [DolphinManager])
    and of the [DolphinInstallation] class ([validate], [downloadAndInstall],
    [_isOutOfDate]).

    The manager is asynchronous JavaScript: every [await] is a point where the
    event loop may run another continuation.  Its code is embedded in a small
    resumption monad [Task] whose [Yield] nodes are exactly the [await]s of the
    source, so that the same definition can be run alone to completion ([run])
    or interleaved with other calls ([Pool]).

    What is outside the repository is kept as small as the code allows:
    - [electronSettings.get] resolves to the stored value;
    - [findDolphinExecutable] resolves to a path or rejects;
    - [spawn] returns a handle (a failing start is reported later, by events);
    - [fs.writeFile] creates or replaces the file; [fs.unlink] removes it and
      rejects with ENOENT when there is none;
    - the effect of an awaited operation is applied when the operation is
      called, and the caller is resumed in a later turn. *)

From stdpp Require Import gmap strings list fin_maps pretty.

Local Open Scope string_scope.
Local Open Scope list_scope.
Local Open Scope Z_scope.

(** ** Data model of dolphinManager.ts *)

(** [mode: "normal" | "mirror" | "queue"] *)
Inductive ReplayMode : Type := normal | mirror | queue.

(** [rollbackDisplayMethod?: "off" | "normal" | "visible"] *)
Inductive RollbackDisplayMethod : Type := rdm_off | rdm_normal | rdm_visible.

(** [interface ReplayQueueItem] *)
Record ReplayQueueItem : Type := {
  qi_path : string;
  qi_startFrame : option Z;
  qi_endFrame : option Z;
  qi_gameStartAt : option string;
  qi_gameStation : option string;
}.

(** [interface ReplayCommunication] *)
Record ReplayCommunication : Type := {
  mode : ReplayMode;
  replay : option string;
  startFrame : option Z;
  endFrame : option Z;
  commandId : option string;
  outputOverlayFiles : option bool;
  isRealTimeMode : option bool;
  shouldResync : option bool;
  rollbackDisplayMethod : option RollbackDisplayMethod;
  queue_items : option (list ReplayQueueItem);
}.

(** ["playback" | "spectate" | "config" | "netplay"] *)
Inductive DolphinUseType : Type := playback | spectate | config | netplay.

(** [DolphinType] of common/dolphin (only its two members are used here). *)
Inductive DolphinType : Type := NETPLAY | PLAYBACK.

(** A [ChildProcessWithoutNullStreams] is represented by the position of the
    process in the list of processes spawned so far. *)
Definition Pid : Type := nat.

(** [interface DolphinInstance] *)
Record DolphinInstance : Type := {
  dolphinUseType : DolphinUseType;
  index : option Z;
  dolphin : option Pid;
  commFilePath : option string;
}.

(** [interface DolphinInstances] *)
Record DolphinInstances : Type := {
  i_playback : option DolphinInstance;
  i_spectate : option (list DolphinInstance);
  i_netplay : option DolphinInstance;
  i_configNetplay : option DolphinInstance;
  i_configPlayback : option DolphinInstance;
}.

(** The initial value of the private field [dolphinInstances]. *)
Definition no_instances : DolphinInstances :=
  {| i_playback := None; i_spectate := None; i_netplay := None;
     i_configNetplay := None; i_configPlayback := None |}.

(** The two keys ["configNetplay"] and ["configPlayback"] that [configureType]
    can hold when [this.dolphinInstances[configureType]] is assigned. *)
Inductive ConfigureType : Type := configNetplay | configPlayback.

(** The four closures passed to [dolphin.on("close", ...)], as data: each one
    records the variables it captures. *)
Inductive CloseHandler : Type :=
| OnClosePlayback (commFilePath : string)
| OnCloseSpectate (commFilePath : string) (index : option Z)
| OnCloseNetplay
| OnCloseConfig (configureType : ConfigureType).

(** What [spawn(dolphinPath, params)] was called with. *)
Record Process : Type := { exe : string; params : list string }.

(** Calls made to the file system, in order, whether they succeeded or not. *)
Inductive FsCall : Type :=
| FsWriteFile (path : string) (data : option string)
| FsUnlink (path : string).

(** Values a rejected promise or a [throw] can carry. *)
Inductive JsError : Type :=
| Error (message : string)          (* [throw Error(message)] in this code *)
| NoDolphinFound (t : DolphinType)  (* rejection of [findDolphinExecutable] *)
| ENOENT (path : string)            (* [fs.unlink] of a file that is absent *)
| ERR_INVALID_ARG_TYPE              (* [fs.writeFile] given [undefined] data *)
| TypeErrorOfNull.                  (* property read on [null] *)

Inductive Result (A : Type) : Type :=
| Ok (a : A)
| Err (e : JsError).
Arguments Ok {A} a.
Arguments Err {A} e.

(** ** The world the manager runs in *)

Record World : Type := {
  dolphinInstances : DolphinInstances;        (* the manager's private field *)
  isoPath : option string;                    (* setting "settings.isoPath" *)
  executables : DolphinType -> option string; (* what findDolphinExecutable finds *)
  files : gmap string string;                 (* the disk: path to contents *)
  draws : nat;                                (* calls to randomBytes so far *)
  processes : list Process;                   (* every process spawned so far *)
  closeListeners : list (Pid * CloseHandler); (* "close" listeners, by process *)
  fsCalls : list FsCall;                      (* file-system calls so far *)
}.

Definition set_instances (f : DolphinInstances -> DolphinInstances) (w : World) : World :=
  {| dolphinInstances := f (dolphinInstances w); isoPath := isoPath w;
     executables := executables w; files := files w; draws := draws w;
     processes := processes w; closeListeners := closeListeners w;
     fsCalls := fsCalls w |}.

Definition set_files (f : gmap string string -> gmap string string) (w : World) : World :=
  {| dolphinInstances := dolphinInstances w; isoPath := isoPath w;
     executables := executables w; files := f (files w); draws := draws w;
     processes := processes w; closeListeners := closeListeners w;
     fsCalls := fsCalls w |}.

Definition set_draws (f : nat -> nat) (w : World) : World :=
  {| dolphinInstances := dolphinInstances w; isoPath := isoPath w;
     executables := executables w; files := files w; draws := f (draws w);
     processes := processes w; closeListeners := closeListeners w;
     fsCalls := fsCalls w |}.

Definition set_processes (f : list Process -> list Process) (w : World) : World :=
  {| dolphinInstances := dolphinInstances w; isoPath := isoPath w;
     executables := executables w; files := files w; draws := draws w;
     processes := f (processes w); closeListeners := closeListeners w;
     fsCalls := fsCalls w |}.

Definition set_closeListeners
    (f : list (Pid * CloseHandler) -> list (Pid * CloseHandler)) (w : World) : World :=
  {| dolphinInstances := dolphinInstances w; isoPath := isoPath w;
     executables := executables w; files := files w; draws := draws w;
     processes := processes w; closeListeners := f (closeListeners w);
     fsCalls := fsCalls w |}.

Definition set_fsCalls (f : list FsCall -> list FsCall) (w : World) : World :=
  {| dolphinInstances := dolphinInstances w; isoPath := isoPath w;
     executables := executables w; files := files w; draws := draws w;
     processes := processes w; closeListeners := closeListeners w;
     fsCalls := f (fsCalls w) |}.

(** Writers of the five slots of [this.dolphinInstances]. *)
Definition with_playback (v : option DolphinInstance) (r : DolphinInstances) : DolphinInstances :=
  {| i_playback := v; i_spectate := i_spectate r; i_netplay := i_netplay r;
     i_configNetplay := i_configNetplay r; i_configPlayback := i_configPlayback r |}.

Definition with_spectate (v : option (list DolphinInstance)) (r : DolphinInstances) : DolphinInstances :=
  {| i_playback := i_playback r; i_spectate := v; i_netplay := i_netplay r;
     i_configNetplay := i_configNetplay r; i_configPlayback := i_configPlayback r |}.

Definition with_netplay (v : option DolphinInstance) (r : DolphinInstances) : DolphinInstances :=
  {| i_playback := i_playback r; i_spectate := i_spectate r; i_netplay := v;
     i_configNetplay := i_configNetplay r; i_configPlayback := i_configPlayback r |}.

Definition with_config (c : ConfigureType) (v : option DolphinInstance)
    (r : DolphinInstances) : DolphinInstances :=
  match c with
  | configNetplay =>
      {| i_playback := i_playback r; i_spectate := i_spectate r; i_netplay := i_netplay r;
         i_configNetplay := v; i_configPlayback := i_configPlayback r |}
  | configPlayback =>
      {| i_playback := i_playback r; i_spectate := i_spectate r; i_netplay := i_netplay r;
         i_configNetplay := i_configNetplay r; i_configPlayback := v |}
  end.

Definition config_slot (c : ConfigureType) (r : DolphinInstances) : option DolphinInstance :=
  match c with
  | configNetplay => i_configNetplay r
  | configPlayback => i_configPlayback r
  end.

(** ** Asynchronous code as a resumption monad

    [Get] and [Modify] are the synchronous reads and writes of the world,
    [Yield] is the suspension of an [await], [Throw] a thrown error or a
    rejected promise. *)

Inductive Task (A : Type) : Type :=
| Ret (a : A)
| Throw (e : JsError)
| Get (k : World -> Task A)
| Modify (f : World -> World) (t : Task A)
| Yield (t : Task A).
Arguments Ret {A} a.
Arguments Throw {A} e.
Arguments Get {A} k.
Arguments Modify {A} f t.
Arguments Yield {A} t.

Fixpoint task_bind {A B : Type} (f : A -> Task B) (m : Task A) : Task B :=
  match m with
  | Ret a => f a
  | Throw e => Throw e
  | Get k => Get (fun w => task_bind f (k w))
  | Modify g t => Modify g (task_bind f t)
  | Yield t => Yield (task_bind f t)
  end.

#[export] Instance Task_ret : MRet Task := fun A a => Ret a.
#[export] Instance Task_bind : MBind Task := fun A B f m => task_bind f m.

(** [await p]: evaluate [p] up to its settlement, then suspend; the caller
    continues in a later turn of the event loop. *)
Definition await {A : Type} (p : Task A) : Task A :=
  a ← p; Yield (Ret a).

Definition read {A : Type} (f : World -> A) : Task A := Get (fun w => Ret (f w)).
Definition write (f : World -> World) : Task unit := Modify f (Ret tt).

(** Running one call alone, from its start to the settlement of its promise:
    no other continuation runs at its suspension points. *)
Fixpoint run {A : Type} (t : Task A) (w : World) : World * Result A :=
  match t with
  | Ret a => (w, Ok a)
  | Throw e => (w, Err e)
  | Get k => run (k w) w
  | Modify f t' => run t' (f w)
  | Yield t' => run t' w
  end.

(** Running the synchronous part of a task, up to its next suspension. *)
Fixpoint advance {A : Type} (t : Task A) (w : World) : World * Task A :=
  match t with
  | Get k => advance (k w) w
  | Modify f t' => advance t' (f w)
  | _ => (w, t)
  end.

(** Resuming a suspended task. *)
Definition resume {A : Type} (t : Task A) (w : World) : World * Task A :=
  match t with
  | Yield t' => advance t' w
  | _ => (w, t)
  end.

(** ** What the host provides

    Values the source obtains from Electron, Node and the caller's payload
    type, none of which the manager inspects. *)

Class Host : Type := {
  (** [app.getPath("temp")] *)
  tmpDir : string;
  (** [randomBytes(3 * 4).toString("hex")], as a function of the number of
      earlier draws *)
  randomHex : nat -> string;
  (** [JSON.stringify] on a payload that is defined *)
  JSON_stringify : ReplayCommunication -> string;
  (** Whether [fs.writeFile(path, undefined)] coerces its data to the text
      "undefined" (Node before 14) or rejects with ERR_INVALID_ARG_TYPE
      (Node 14 and later). *)
  writeFile_coerces : bool;
}.

(** Truthiness of a string. *)
Definition truthy (s : string) : bool := negb (String.eqb s "").

(** The template literal [`${dolphinUseType}`]. *)
Definition use_type_name (t : DolphinUseType) : string :=
  match t with
  | playback => "playback"
  | spectate => "spectate"
  | config => "config"
  | netplay => "netplay"
  end.

(** [path.join] of a directory and a file name. *)
Definition path_join (dir name : string) : string := dir +:+ "/" +:+ name.

(** [instance.index === index].  The parameter [index] is declared
    [index: number]; the compiled JavaScript does not check that, so the value
    may also be [undefined] ([None]), when the caller leaves it out. *)
Definition index_is (idx : option Z) (inst : DolphinInstance) : bool :=
  match index inst, idx with
  | Some i, Some j => Z.eqb i j
  | None, None => true
  | _, _ => false
  end.

(** [index < 0]: [undefined] converts to NaN, and the comparison is false. *)
Definition lt_zero (idx : option Z) : bool :=
  match idx with
  | Some i => i <? 0
  | None => false
  end.

(** lodash [find(collection, ["index", index])]: the first element whose
    [index] property is strictly equal to [index]; [undefined] on [null].
    (For an [undefined] value lodash also asks that the element has the key;
    every element of the spectate array is built with it.) *)
Definition lodash_find (collection : option (list DolphinInstance)) (idx : option Z)
    : option DolphinInstance :=
  match collection with
  | Some l => List.find (index_is idx) l
  | None => None
  end.

(** lodash [remove(array, predicate)]: drops, in place, every element the
    predicate holds of. *)
Definition lodash_remove (array : list DolphinInstance) (p : DolphinInstance -> bool)
    : list DolphinInstance :=
  List.filter (fun x => negb (p x)) array.

Section Manager.
Context `{Host}.

(** *** The collaborators of the manager *)

(** [electronSettings.get("settings.isoPath")] *)
Definition electronSettings_get_isoPath : Task (option string) := read isoPath.

(** [findDolphinExecutable(dolphinType)] of common/dolphin: resolves to a path
    or rejects. *)
Definition findDolphinExecutable (dolphinType : DolphinType) : Task string :=
  Get (fun w =>
    match executables w dolphinType with
    | Some p => Ret p
    | None => Throw (NoDolphinFound dolphinType)
    end).

(** [spawn(dolphinPath, params)]: starts a process and returns its handle. *)
Definition spawn (dolphinPath : string) (ps : list string) : Task Pid :=
  Get (fun w =>
    Modify (set_processes (fun l => l ++ [{| exe := dolphinPath; params := ps |}]))
      (Ret (length (processes w)))).

(** [dolphin.on("close", handler)] *)
Definition on_close (dolphin : Pid) (h : CloseHandler) : Task unit :=
  write (set_closeListeners (fun l => l ++ [(dolphin, h)])).

(** [fs.writeFile(path, data)]: creates or replaces the file. *)
Definition fs_writeFile (path : string) (data : option string) : Task unit :=
  write (set_fsCalls (fun l => l ++ [FsWriteFile path data]));;
  match data with
  | Some s => write (set_files (insert path s))
  | None =>
      if writeFile_coerces
      then write (set_files (insert path "undefined"))
      else Throw ERR_INVALID_ARG_TYPE
  end.

(** [fs.unlink(path)]: removes the file, and rejects when there is none. *)
Definition fs_unlink (path : string) : Task unit :=
  write (set_fsCalls (fun l => l ++ [FsUnlink path]));;
  present ← read (fun w => files w !! path);
  match present with
  | Some _ => write (set_files (delete path))
  | None => Throw (ENOENT path)
  end.

(** [JSON.stringify(replayComm)]: [undefined] for an argument left out. *)
Definition stringify (replayComm : option ReplayCommunication) : option string :=
  JSON_stringify <$> replayComm.

(** *** generateCommunicationFilePath *)

Definition generateCommunicationFilePath (dolphinUseType : DolphinUseType) : Task string :=
  uniqueId ← Get (fun w => Modify (set_draws S) (Ret (randomHex (draws w))));
  let commFileName := "slippi-" +:+ use_type_name dolphinUseType +:+ "-" +:+ uniqueId +:+ ".txt" in
  let commFileFullPath := path_join tmpDir commFileName in
  mret commFileFullPath.

(** *** DolphinManager.startDolphin *)

Definition startDolphin (dolphinType : DolphinType) (commFilePath : option string)
    (additionalParams : option (list string)) : Task Pid :=
  dolphinPath ← await (findDolphinExecutable dolphinType);
  let params1 :=
    match commFilePath with
    | Some p => if truthy p then ["-i"; p] else []
    | None => []
    end in
  let params2 :=
    match additionalParams with
    | Some l => params1 ++ l
    | None => params1
    end in
  spawn dolphinPath params2.

(** *** DolphinManager.launchDolphin *)

Definition iso_params (meleeISOPath : option string) : list string :=
  match meleeISOPath with
  | Some p => if truthy p then ["-b"; "-e"; p] else []
  | None => []
  end.

Definition launch_playback (isoParams : list string)
    (replayComm : option ReplayCommunication) : Task unit :=
  cur ← read (fun w => i_playback (dolphinInstances w));
  match cur with
  | None =>
      commFilePath ← await (generateCommunicationFilePath playback);
      dolphin ← await (startDolphin PLAYBACK (Some commFilePath) (Some isoParams));
      write (set_instances (with_playback (Some
        {| dolphinUseType := playback; index := None;
           dolphin := Some dolphin; commFilePath := Some commFilePath |})));;
      on_close dolphin (OnClosePlayback commFilePath)
  | Some _ => mret tt
  end;;
  cur' ← read (fun w => i_playback (dolphinInstances w));
  match cur' with
  | None => Throw TypeErrorOfNull
  | Some inst =>
      match commFilePath inst with
      | Some p =>
          if truthy p then await (fs_writeFile p (stringify replayComm)) else mret tt
      | None => mret tt
      end
  end.

Definition has_dolphin (inst : DolphinInstance) : bool :=
  match dolphin inst with
  | Some _ => true
  | None => false
  end.

Definition launch_spectate (isoParams : list string) (idx : option Z)
    (replayComm : option ReplayCommunication) : Task unit :=
  if lt_zero idx then Throw (Error "Must have a valid index") else
  found ← read (fun w => lodash_find (i_spectate (dolphinInstances w)) idx);
  let create : Task DolphinInstance :=
    commFilePath ← await (generateCommunicationFilePath spectate);
    dolphin ← await (startDolphin PLAYBACK (Some commFilePath) (Some isoParams));
    let dolphinInstance :=
      {| dolphinUseType := spectate; index := idx;
         commFilePath := Some commFilePath; dolphin := Some dolphin |} in
    cur ← read (fun w => i_spectate (dolphinInstances w));
    match cur with
    | None => write (set_instances (with_spectate (Some [dolphinInstance])))
    | Some l => write (set_instances (with_spectate (Some (l ++ [dolphinInstance]))))
    end;;
    on_close dolphin (OnCloseSpectate commFilePath idx);;
    mret dolphinInstance in
  dolphinInstance ←
    match found with
    | Some inst => if has_dolphin inst then mret inst else create
    | None => create
    end;
  match commFilePath dolphinInstance with
  | Some p =>
      if truthy p then await (fs_writeFile p (stringify replayComm)) else mret tt
  | None => mret tt
  end.

Definition launch_netplay (isoParams : list string) : Task unit :=
  cur ← read (fun w => i_netplay (dolphinInstances w));
  match cur with
  | None =>
      dolphin ← await (startDolphin NETPLAY None (Some isoParams));
      write (set_instances (with_netplay (Some
        {| dolphinUseType := netplay; index := None;
           dolphin := Some dolphin; commFilePath := None |})));;
      on_close dolphin OnCloseNetplay
  | Some _ => mret tt
  end.

(** The key chosen by the [if]/[else if] on [dolphinType] in the "config" case. *)
Definition configureType_of (t : DolphinType) : ConfigureType :=
  match t with
  | NETPLAY => configNetplay
  | PLAYBACK => configPlayback
  end.

Definition launch_config (dolphinType : option DolphinType) : Task unit :=
  match dolphinType with
  | Some t =>
      let configureType := configureType_of t in
      dolphin ← await (startDolphin t None None);
      write (set_instances (with_config configureType (Some
        {| dolphinUseType := config; index := None;
           dolphin := Some dolphin; commFilePath := None |})));;
      on_close dolphin (OnCloseConfig configureType)
  | None => Throw (Error "Must define a dolphin type for configuration")
  end.

Definition launchDolphin (dolphinUseType : DolphinUseType) (index : option Z)
    (replayComm : option ReplayCommunication) (dolphinType : option DolphinType)
    : Task unit :=
  meleeISOPath ← await electronSettings_get_isoPath;
  let isoParams := iso_params meleeISOPath in
  match dolphinUseType with
  | playback => launch_playback isoParams replayComm
  | spectate => launch_spectate isoParams index replayComm
  | netplay => launch_netplay isoParams
  | config => launch_config dolphinType
  end.

(** *** The "close" listeners *)

Definition closeHandler (h : CloseHandler) : Task unit :=
  match h with
  | OnClosePlayback commFilePath =>
      await (fs_unlink commFilePath);;
      write (set_instances (with_playback None))
  | OnCloseSpectate commFilePath idx =>
      await (fs_unlink commFilePath);;
      cur ← read (fun w => i_spectate (dolphinInstances w));
      match cur with
      | Some l =>
          write (set_instances (with_spectate (Some (lodash_remove l (index_is idx)))))
      | None => mret tt
      end
  | OnCloseNetplay => write (set_instances (with_netplay None))
  | OnCloseConfig configureType =>
      write (set_instances (with_config configureType None))
  end.

(** The listeners registered on a process, in registration order. *)
Definition listeners_of (pid : Pid) (w : World) : list CloseHandler :=
  map snd (List.filter (fun l => Nat.eqb (fst l) pid) (closeListeners w)).

(** The process [pid] exits and nothing else happens until its listeners have
    finished; a listener that rejects does not stop the others. *)
Definition emit_close (pid : Pid) (w : World) : World :=
  fold_left (fun w h => fst (run (closeHandler h) w)) (listeners_of pid w) w.

(** Calls made one after the other, each awaited before the next is made. *)
Definition run_all (calls : list (Task unit)) (w : World) : World :=
  fold_left (fun w t => fst (run t w)) calls w.


(** *** Interleaved calls

    The event loop holds the calls that were made and are not settled; at each
    turn it makes a new call, resumes a suspended one or delivers the exit of a
    process to that process's listeners. *)

Record Pool : Type := { world : World; tasks : list (Task unit) }.

Inductive Turn : Type :=
| Launch (dolphinUseType : DolphinUseType) (index : option Z)
    (replayComm : option ReplayCommunication) (dolphinType : option DolphinType)
| Resume (i : nat)
| Close (pid : Pid).

Definition start (t : Task unit) (p : Pool) : Pool :=
  let '(w, t') := advance t (world p) in
  {| world := w; tasks := tasks p ++ [t'] |}.

Definition turn (p : Pool) (e : Turn) : Pool :=
  match e with
  | Launch u i r d => start (launchDolphin u i r d) p
  | Resume i =>
      match tasks p !! i with
      | Some t =>
          let '(w, t') := resume t (world p) in
          {| world := w; tasks := <[i := t']> (tasks p) |}
      | None => p
      end
  | Close pid =>
      fold_left (fun p h => start (closeHandler h) p) (listeners_of pid (world p)) p
  end.

Definition play (schedule : list Turn) (p : Pool) : Pool :=
  fold_left turn schedule p.

(** *** Names for the states the code passes through *)

(** The path [generateCommunicationFilePath] returns when called in [w]. *)
Definition fresh_path (dolphinUseType : DolphinUseType) (w : World) : string :=
  path_join tmpDir
    ("slippi-" +:+ use_type_name dolphinUseType +:+ "-" +:+ randomHex (draws w) +:+ ".txt").

(** The handle [spawn] returns when called in [w]. *)
Definition fresh_pid (w : World) : Pid := length (processes w).

(** The world after [spawn(exe, ps)] and [dolphin.on("close", h)]. *)
Definition spawned (exe : string) (ps : list string) (h : CloseHandler) (w : World) : World :=
  set_closeListeners (fun l => l ++ [(fresh_pid w, h)])
    (set_processes (fun l => l ++ [{| exe := exe; params := ps |}]) w).

Definition playback_instance (w : World) : DolphinInstance :=
  {| dolphinUseType := playback; index := None;
     dolphin := Some (fresh_pid w); commFilePath := Some (fresh_path playback w) |}.

Definition spectate_instance (idx : option Z) (w : World) : DolphinInstance :=
  {| dolphinUseType := spectate; index := idx;
     commFilePath := Some (fresh_path spectate w); dolphin := Some (fresh_pid w) |}.

Definition plain_instance (u : DolphinUseType) (w : World) : DolphinInstance :=
  {| dolphinUseType := u; index := None;
     dolphin := Some (fresh_pid w); commFilePath := None |}.

(** The world in which the comm file is written after a playback instance
    was created. *)
Definition playback_created (exe : string) (w : World) : World :=
  set_instances (with_playback (Some (playback_instance w)))
    (spawned exe (["-i"; fresh_path playback w] ++ iso_params (isoPath w))
       (OnClosePlayback (fresh_path playback w)) (set_draws S w)).

(** [this.dolphinInstances.spectate.push(inst)], or the creation of the array. *)
Definition push_spectate (inst : DolphinInstance) (r : DolphinInstances) : DolphinInstances :=
  match i_spectate r with
  | None => with_spectate (Some [inst]) r
  | Some l => with_spectate (Some (l ++ [inst])) r
  end.

(** The spectate instance a call with [idx] reuses, if there is one. *)
Definition live_spectate (idx : option Z) (w : World) : option DolphinInstance :=
  match lodash_find (i_spectate (dolphinInstances w)) idx with
  | Some inst => if has_dolphin inst then Some inst else None
  | None => None
  end.

(** The world in which the comm file is written after a spectate instance
    was created. *)
Definition spectate_created (idx : option Z) (exe : string) (w : World) : World :=
  set_instances (push_spectate (spectate_instance idx w))
    (spawned exe (["-i"; fresh_path spectate w] ++ iso_params (isoPath w))
       (OnCloseSpectate (fresh_path spectate w) idx) (set_draws S w)).

(** The world after a netplay instance was created. *)
Definition netplay_created (exe : string) (w : World) : World :=
  set_instances (with_netplay (Some (plain_instance netplay w)))
    (spawned exe (iso_params (isoPath w)) OnCloseNetplay w).

(** The world after a config instance was created. *)
Definition config_created (t : DolphinType) (exe : string) (w : World) : World :=
  set_instances (with_config (configureType_of t) (Some (plain_instance config w)))
    (spawned exe [] (OnCloseConfig (configureType_of t)) w).

(** The comm file of the instance that a playback or spectate call finds or
    creates, by the path the call takes through the code. *)
Inductive serves (w : World) : DolphinUseType -> option Z -> string -> Prop :=
| serves_playback_live idx inst p :
    i_playback (dolphinInstances w) = Some inst ->
    commFilePath inst = Some p -> truthy p = true ->
    serves w playback idx p
| serves_playback_new idx exe :
    i_playback (dolphinInstances w) = None ->
    executables w PLAYBACK = Some exe ->
    serves w playback idx (fresh_path playback w)
| serves_spectate_live idx inst p :
    lt_zero idx = false -> live_spectate idx w = Some inst ->
    commFilePath inst = Some p -> truthy p = true ->
    serves w spectate idx p
| serves_spectate_new idx exe :
    lt_zero idx = false -> live_spectate idx w = None ->
    executables w PLAYBACK = Some exe ->
    serves w spectate idx (fresh_path spectate w).

(** The build of Dolphin that a netplay or config call starts, and the slot
    the call is about. *)
Definition plain_variant (u : DolphinUseType) (dolphinType : option DolphinType)
    : option DolphinType :=
  match u with
  | netplay => Some NETPLAY
  | config => dolphinType
  | _ => None
  end.

Definition plain_slot (u : DolphinUseType) (t : DolphinType) (r : DolphinInstances)
    : option DolphinInstance :=
  match u with
  | netplay => i_netplay r
  | _ => config_slot (configureType_of t) r
  end.

End Manager.

(** ** How instances and listeners hang together

    What launchDolphin establishes each time it creates an instance: the
    process of every playback or spectate instance in the registry has one
    "close" listener, which captured that instance's comm file (and index). *)

Record wired (w : World) : Prop := {
  wired_pids :
    Forall (fun l => (l.1 < length (processes w))%nat) (closeListeners w);
  wired_nodup : NoDup (map fst (closeListeners w));
  wired_playback : forall inst,
    i_playback (dolphinInstances w) = Some inst ->
    exists pid p, dolphin inst = Some pid /\ commFilePath inst = Some p /\
      In (pid, OnClosePlayback p) (closeListeners w);
  wired_spectate : forall l inst,
    i_spectate (dolphinInstances w) = Some l -> In inst l ->
    exists pid p, dolphin inst = Some pid /\ commFilePath inst = Some p /\
      In (pid, OnCloseSpectate p (index inst)) (closeListeners w);
}.

(** ** Concrete hosts and worlds, for closed examples *)

Definition mode_name (m : ReplayMode) : string :=
  match m with
  | normal => "normal"
  | mirror => "mirror"
  | queue => "queue"
  end.

Definition quoted (s : string) : string :=
  String (Ascii.ascii_of_nat 34) (s +:+ String (Ascii.ascii_of_nat 34) "").

(** A stand-in for [JSON.stringify] that prints the [mode] field only. *)
Definition sample_stringify (rc : ReplayCommunication) : string :=
  "{" +:+ quoted "mode" +:+ ":" +:+ quoted (mode_name (mode rc)) +:+ "}".

(** A host whose [fs.writeFile] rejects [undefined] data. *)
Definition node14_host : Host :=
  {| tmpDir := "/tmp"; randomHex := fun n => "c0ffee" +:+ pretty n;
     JSON_stringify := sample_stringify; writeFile_coerces := false |}.

(** A host whose [fs.writeFile] coerces [undefined] data to text. *)
Definition node12_host : Host :=
  {| tmpDir := "/tmp"; randomHex := fun n => "c0ffee" +:+ pretty n;
     JSON_stringify := sample_stringify; writeFile_coerces := true |}.

(** Nothing launched yet, both builds of Dolphin installed, an ISO configured. *)
Definition fresh_world : World :=
  {| dolphinInstances := no_instances; isoPath := Some "/games/melee.iso";
     executables := fun t =>
       match t with
       | NETPLAY => Some "/opt/netplay/dolphin"
       | PLAYBACK => Some "/opt/playback/dolphin"
       end;
     files := ∅; draws := 0%nat; processes := []; closeListeners := [];
     fsCalls := [] |}.

Definition sample_payload : ReplayCommunication :=
  {| mode := normal; replay := Some "/replays/game.slp"; startFrame := None;
     endFrame := None; commandId := None; outputOverlayFiles := None;
     isRealTimeMode := None; shouldResync := None; rollbackDisplayMethod := None;
     queue_items := None |}.


(** ** The installation: DolphinInstallation

    One call of [validate] at a time is considered, so its code is embedded in
    a plain state-and-failure monad; [try]/[catch] is [try_catch]. *)

Module Installation.

(** [DolphinLaunchType] of ../types. *)
Inductive DolphinLaunchType : Type := NETPLAY | PLAYBACK.

(** [DolphinVersionResponse] of ./fetchLatestVersion, as far as it is used:
    [downloadUrls] is indexed by [process.platform]. *)
Record DolphinVersionResponse : Type := {
  version : string;
  downloadUrls : gmap string string;
}.

Inductive Failure : Type :=
| Error (message : string)  (* [throw new Error(message)] in this code *)
| FetchFailed               (* rejection of [fetchLatestVersion] *)
| NoExecutable              (* rejection of [findDolphinExecutable] *)
| NoStdout                  (* [.stdout.toString()] on a [spawnSync] that failed *)
| InvalidVersion            (* thrown by semver's [lt] on a string it cannot parse *)
| DownloadFailed            (* rejection of [downloadLatestDolphin] *)
| InstallFailed.            (* rejection of the platform's installer *)

Inductive Outcome (A : Type) : Type :=
| Done (a : A)
| Failed (f : Failure).
Arguments Done {A} a.
Arguments Failed {A} f.

(** What the installation did to the machine, in order. *)
Inductive Effect : Type :=
| Download (url dir : string)
| Remove (path : string)
| Install (platform assetPath destinationFolder : string).

Record World : Type := {
  platform : string;                    (* [process.platform] *)
  userData : string;                    (* [app.getPath("userData")] *)
  homedir : string;                     (* [os.homedir()] *)
  latest : DolphinLaunchType -> option DolphinVersionResponse;
                                        (* what [fetchLatestVersion] resolves to *)
  executable : option string;           (* what [findDolphinExecutable] resolves to *)
  version_stdout : option string;       (* standard output of [dolphin --version] *)
  asset : option string;                (* what [downloadLatestDolphin] resolves to *)
  installer_ok : bool;                  (* whether the platform's installer succeeds *)
  logged : list string;                 (* messages passed to [log], in order *)
  effects : list Effect;
}.

Definition add_log (ms : list string) (w : World) : World :=
  {| platform := platform w; userData := userData w; homedir := homedir w;
     latest := latest w; executable := executable w;
     version_stdout := version_stdout w; asset := asset w;
     installer_ok := installer_ok w; logged := logged w ++ ms;
     effects := effects w |}.

Definition add_effect (e : Effect) (w : World) : World :=
  {| platform := platform w; userData := userData w; homedir := homedir w;
     latest := latest w; executable := executable w;
     version_stdout := version_stdout w; asset := asset w;
     installer_ok := installer_ok w; logged := logged w;
     effects := effects w ++ [e] |}.

Definition M (A : Type) : Type := World -> World * Outcome A.

Definition ret {A : Type} (a : A) : M A := fun w => (w, Done a).

Definition bind {A B : Type} (m : M A) (f : A -> M B) : M B :=
  fun w =>
    match m w with
    | (w', Done a) => f a w'
    | (w', Failed e) => (w', Failed e)
    end.

Definition throw {A : Type} (e : Failure) : M A := fun w => (w, Failed e).

Definition try_catch {A : Type} (body : M A) (handler : Failure -> M A) : M A :=
  fun w =>
    match body w with
    | (w', Done a) => (w', Done a)
    | (w', Failed e) => handler e w'
    end.

Definition get {A : Type} (f : World -> A) : M A := fun w => (w, Done (f w)).

Definition of_option {A : Type} (f : World -> option A) (e : Failure) : M A :=
  fun w =>
    match f w with
    | Some a => (w, Done a)
    | None => (w, Failed e)
    end.

(** [log(message)] *)
Definition log (message : string) : M unit := fun w => (add_log [message] w, Done tt).

Definition effect (e : Effect) : M unit := fun w => (add_effect e w, Done tt).

#[export] Instance M_ret : MRet M := @ret.
#[export] Instance M_bind : MBind M := fun A B f m => bind m f.

(** The message logged when the installed version is not behind. *)
Definition no_update_message : string := "No update found...".

Definition lower_ascii (c : Ascii.ascii) : Ascii.ascii :=
  let n := Ascii.nat_of_ascii c in
  if ((65 <=? n) && (n <=? 90))%nat then Ascii.ascii_of_nat (n + 32) else c.

Fixpoint lowercase (s : string) : string :=
  match s with
  | EmptyString => EmptyString
  | String c s' => String (lower_ascii c) (lowercase s')
  end.

Section Class.

(** semver's [lt(a, b)]: [None] when it throws. *)
Variable semver_lt : string -> string -> option bool.
(** The text of a launch type in a template literal. *)
Variable type_name : DolphinLaunchType -> string.
(** The two fields set by the constructor. *)
Variable dolphinLaunchType : DolphinLaunchType.
Variable installationFolder : string.

(** [fetchLatestVersion(type)] *)
Definition fetchLatestVersion (type : DolphinLaunchType) : M DolphinVersionResponse :=
  of_option (fun w => latest w type) FetchFailed.

(** [get userFolder] *)
Definition userFolder : M string :=
  p ← get platform;
  if String.eqb p "win32" then mret (path_join installationFolder "User")
  else if String.eqb p "darwin" then
    mret (path_join (path_join (path_join (path_join installationFolder
            "Slippi Dolphin.app") "Contents") "Resources") "User")
  else if String.eqb p "linux" then
    home ← get homedir;
    let configPath := path_join home ".config" in
    let userFolderName :=
      match dolphinLaunchType with
      | NETPLAY => "SlippiOnline"
      | PLAYBACK => "SlippiPlayback"
      end in
    mret (path_join configPath userFolderName)
  else throw (Error ("Unsupported operating system: " +:+ p)).

(** [findDolphinExecutable()] *)
Definition findDolphinExecutable : M string :=
  of_option executable NoExecutable.

(** [_isOutOfDate(latestVersion)] *)
Definition _isOutOfDate (latestVersion : string) : M bool :=
  dolphinPath ← findDolphinExecutable;
  dolphinVersion ← of_option version_stdout NoStdout;
  match semver_lt dolphinVersion latestVersion with
  | Some b => mret b
  | None => throw InvalidVersion
  end.

(** [_uninstallDolphin()] *)
Definition _uninstallDolphin : M unit :=
  effect (Remove installationFolder);;
  p ← get platform;
  if String.eqb p "linux" then
    folder ← userFolder;
    effect (Remove folder)
  else mret tt.

(** The installer of ./windows, ./macos or ./linux. *)
Definition run_installer (p assetPath : string) : M unit :=
  effect (Install p assetPath installationFolder);;
  ok ← get installer_ok;
  if (ok : bool) then mret tt else throw InstallFailed.

(** [_installDolphin(assetPath, log, cleanInstall = false)] *)
Definition _installDolphin (assetPath : string) (cleanInstall : option bool) : M unit :=
  let dolphinPath := installationFolder in
  (if default false cleanInstall then _uninstallDolphin else mret tt);;
  p ← get platform;
  if String.eqb p "win32" || String.eqb p "darwin" || String.eqb p "linux"
  then run_installer p assetPath
  else throw (Error ("Installing " +:+ type_name dolphinLaunchType +:+
                     " Dolphin is not supported on this platform: " +:+ p)).

(** [downloadAndInstall({ releaseInfo, log, cleanInstall })]; the progress
    lines that [downloadLatestDolphin] passes to [log] are left out. *)
Definition downloadAndInstall (releaseInfo : option DolphinVersionResponse)
    (cleanInstall : option bool) : M unit :=
  let type := dolphinLaunchType in
  dolphinDownloadInfo ←
    match releaseInfo with
    | Some info => mret info
    | None => fetchLatestVersion type
    end;
  p ← get platform;
  match downloadUrls dolphinDownloadInfo !! p with
  | Some downloadUrl =>
      if truthy downloadUrl then
        dir ← get userData;
        let downloadDir := path_join dir "temp" in
        effect (Download downloadUrl downloadDir);;
        downloadedAsset ← of_option asset DownloadFailed;
        log ("Installing v" +:+ version dolphinDownloadInfo +:+ " " +:+
             type_name type +:+ " Dolphin...");;
        _installDolphin downloadedAsset cleanInstall;;
        log ("Finished v" +:+ version dolphinDownloadInfo +:+ " " +:+
             type_name type +:+ " Dolphin install")
      else throw (Error ("Could not find latest Dolphin download url for " +:+ p))
  | None => throw (Error ("Could not find latest Dolphin download url for " +:+ p))
  end.

(** The template literals that [validate] logs. *)
Definition found_message (type : DolphinLaunchType) : string :=
  "Found existing " +:+ type_name type +:+ " Dolphin executable.".

Definition checking_message (type : DolphinLaunchType) : string :=
  "Checking if we need to update " +:+ type_name type +:+ " Dolphin".

Definition outdated_message (type : DolphinLaunchType) : string :=
  type_name type +:+ " Dolphin installation is outdated. Downloading latest...".

Definition not_found_message (type : DolphinLaunchType) : string :=
  "Could not find " +:+ type_name type +:+ " Dolphin installation. Downloading...".

(** The [try] block of [validate]: [true] when it ended in [return]. *)
Definition validate_try (dolphinDownloadInfo : DolphinVersionResponse) : M bool :=
  let type := dolphinLaunchType in
  findDolphinExecutable;;
  log (found_message type);;
  log (checking_message type);;
  let latestVersion := version dolphinDownloadInfo in
  isOutdated ← _isOutOfDate latestVersion;
  if negb isOutdated then
    log no_update_message;;
    mret true
  else
    log (outdated_message type);;
    mret false.

(** [validate(log)] *)
Definition validate : M unit :=
  let type := dolphinLaunchType in
  dolphinDownloadInfo ← fetchLatestVersion type;
  returned ←
    try_catch (validate_try dolphinDownloadInfo)
      (fun err =>
         log (not_found_message type);;
         mret false);
  if (returned : bool) then mret tt
  else downloadAndInstall (Some dolphinDownloadInfo) None.

End Class.

(** *** A comparison of versions for closed examples

    Versions of the form MAJOR.MINOR.PATCH only, compared number by number;
    anything else is refused, as semver's [lt] refuses it by throwing. *)

Fixpoint digits (s : string) (acc : nat) : option nat :=
  match s with
  | EmptyString => Some acc
  | String c s' =>
      let n := Ascii.nat_of_ascii c in
      if ((48 <=? n) && (n <=? 57))%nat then digits s' (10 * acc + (n - 48))%nat
      else None
  end.

Fixpoint split_dots (s : string) (cur : string) : list string :=
  match s with
  | EmptyString => [cur]
  | String c s' =>
      if Ascii.eqb c (Ascii.ascii_of_nat 46) then cur :: split_dots s' EmptyString
      else split_dots s' (cur +:+ String c EmptyString)
  end.

Definition parse_version (s : string) : option (nat * nat * nat) :=
  match split_dots s EmptyString with
  | [a; b; c] =>
      if String.eqb a "" || String.eqb b "" || String.eqb c "" then None else
      match digits a 0, digits b 0, digits c 0 with
      | Some x, Some y, Some z => Some (x, y, z)
      | _, _, _ => None
      end
  | _ => None
  end.

Definition sample_lt (a b : string) : option bool :=
  match parse_version a, parse_version b with
  | Some (x, y, z), Some (x', y', z') =>
      Some ((x <? x') || ((x =? x') && ((y <? y') || ((y =? y') && (z <? z')))))%nat
  | _, _ => None
  end.

Definition sample_type_name (t : DolphinLaunchType) : string :=
  match t with
  | NETPLAY => "netplay"
  | PLAYBACK => "playback"
  end.

(** A Linux machine with netplay Dolphin 2.3.1 installed; the latest release
    is 2.3.1. *)
Definition up_to_date : World :=
  {| platform := "linux"; userData := "/home/u/.config/Slippi Launcher";
     homedir := "/home/u";
     latest := fun _ =>
       Some {| version := "2.3.1";
               downloadUrls := {[ "linux" := "https://example.org/dolphin.zip" ]} |};
     executable := Some "/home/u/.config/Slippi Launcher/netplay/dolphin-emu";
     version_stdout := Some "2.3.1";
     asset := Some "/home/u/.config/Slippi Launcher/temp/dolphin.zip";
     installer_ok := true; logged := []; effects := [] |}.

Definition with_stdout (o : option string) (w : World) : World :=
  {| platform := platform w; userData := userData w; homedir := homedir w;
     latest := latest w; executable := executable w;
     version_stdout := o; asset := asset w;
     installer_ok := installer_ok w; logged := logged w;
     effects := effects w |}.

Definition with_executable (o : option string) (w : World) : World :=
  {| platform := platform w; userData := userData w; homedir := homedir w;
     latest := latest w; executable := o;
     version_stdout := version_stdout w; asset := asset w;
     installer_ok := installer_ok w; logged := logged w;
     effects := effects w |}.

End Installation.

(** ** Histories of the manager

    Launches awaited one at a time and exits of processes, in any order. *)

Section History.
Context `{Host}.

Inductive Step : Type :=
| DoLaunch (dolphinUseType : DolphinUseType) (index : option Z)
    (replayComm : option ReplayCommunication) (dolphinType : option DolphinType)
| DoExit (pid : Pid).

Definition step (w : World) (s : Step) : World :=
  match s with
  | DoLaunch u i r d => (run (launchDolphin u i r d) w).1
  | DoExit pid => emit_close pid w
  end.

Definition history (steps : list Step) (w : World) : World :=
  fold_left step steps w.

(** The build whose executable a call asks [startDolphin] for. *)
Definition needed_build (u : DolphinUseType) (dolphinType : option DolphinType)
    : option DolphinType :=
  match u with
  | playback | spectate => Some PLAYBACK
  | netplay => Some NETPLAY
  | config => dolphinType
  end.

(** The argument list a call made in [w] passes to [spawn]. *)
Definition spawn_params (u : DolphinUseType) (w : World) : list string :=
  match u with
  | playback | spectate => ["-i"; fresh_path u w] ++ iso_params (isoPath w)
  | netplay => iso_params (isoPath w)
  | config => []
  end.

(** A call [launchDolphin("playback", index, replayComm, dolphinType)] that
    passes a payload. *)
Definition payload_call
    (a : option Z * ReplayCommunication * option DolphinType) : Task unit :=
  launchDolphin playback a.1.1 (Some a.1.2) a.2.

End History.

(** ** The header: the "Play now" button (renderer/containers/Header)

    [onPlay] and [handleError].  What the component shows is the list of the
    snackbars passed to [showSnackbar]; [assertPlayKey] and [startGame] are
    outside the file and either resolve or reject. *)

Module Header.











End Header.

(** ** Reading the effects of an installation *)

Module InstallationEffects.
Import Installation.

Definition is_remove (e : Effect) : bool :=
  match e with
  | Remove _ => true
  | _ => false
  end.

(** The folders removed so far. *)
Definition removals (w : World) : list Effect := List.filter is_remove (effects w).


Section Folders.
Variable type_name : DolphinLaunchType -> string.
Variable dolphinLaunchType : DolphinLaunchType.
Variable installationFolder : string.



End Folders.


Definition with_asset (o : option string) (w : World) : World :=
  {| platform := platform w; userData := userData w; homedir := homedir w;
     latest := latest w; executable := executable w;
     version_stdout := version_stdout w; asset := o;
     installer_ok := installer_ok w; logged := logged w;
     effects := effects w |}.



End InstallationEffects.

(** ** Facts about the manager *)

Section ManagerFacts.
Context `{Host}.

Lemma truthy_path_join dir name : truthy (path_join dir name) = true.
Proof. unfold truthy, path_join. destruct dir; reflexivity. Qed.

Lemma truthy_fresh_path u w : truthy (fresh_path u w) = true.
Proof. apply truthy_path_join. Qed.

Lemma run_bind {A B} (m : Task A) (f : A -> Task B) w :
  run (m ≫= f) w =
  match run m w with
  | (w', Ok a) => run (f a) w'
  | (w', Err e) => (w', Err e)
  end.
Proof.
  revert w. induction m as [a|e|k IH|g t IH|t IH]; intros w; cbn; auto.
Qed.

(** A call run alone is the iteration of [resume] on its suspensions. *)
Lemma run_advance {A} (t : Task A) w :
  run t w = run (advance t w).2 (advance t w).1.
Proof.
  revert w. induction t as [a|e|k IH|g t IH|t IH]; intros w; cbn; auto.
Qed.

Lemma run_resume {A} (t : Task A) w :
  run t w = run (resume t w).2 (resume t w).1.
Proof. destruct t; cbn; auto using run_advance. Qed.

(** *** fs.writeFile and fs.unlink *)

Lemma run_writeFile_data p s w :
  run (fs_writeFile p (Some s)) w =
  (set_files (insert p s) (set_fsCalls (fun l => l ++ [FsWriteFile p (Some s)]) w), Ok tt).
Proof. reflexivity. Qed.

Lemma writeFile_calls p d w :
  fsCalls (run (fs_writeFile p d) w).1 = fsCalls w ++ [FsWriteFile p d].
Proof. destruct d; cbn; [done|]. destruct writeFile_coerces; done. Qed.

Lemma writeFile_frame p d w :
  let w' := (run (fs_writeFile p d) w).1 in
  dolphinInstances w' = dolphinInstances w /\ processes w' = processes w /\
  closeListeners w' = closeListeners w /\ draws w' = draws w.
Proof. destruct d; cbn; [done|]. destruct writeFile_coerces; done. Qed.

(** *** launchDolphin("playback", ...) *)

Lemma launch_playback_live w idx rc dt inst p :
  i_playback (dolphinInstances w) = Some inst ->
  commFilePath inst = Some p -> truthy p = true ->
  run (launchDolphin playback idx rc dt) w = run (await (fs_writeFile p (stringify rc))) w.
Proof.
  intros E Ep Et. unfold launchDolphin, launch_playback. cbn.
  rewrite E. cbn. rewrite E, Ep, Et. reflexivity.
Qed.

Lemma launch_playback_keeps w idx rc dt inst :
  i_playback (dolphinInstances w) = Some inst ->
  let w' := (run (launchDolphin playback idx rc dt) w).1 in
  dolphinInstances w' = dolphinInstances w /\ processes w' = processes w /\
  closeListeners w' = closeListeners w.
Proof.
  intros E. unfold launchDolphin, launch_playback. cbn. rewrite E. cbn. rewrite E.
  destruct (commFilePath inst) as [p|]; cbn; [|done].
  destruct (truthy p); cbn; [|done].
  destruct rc; cbn; [done|]. destruct writeFile_coerces; done.
Qed.

Lemma launch_playback_missing w idx rc dt :
  i_playback (dolphinInstances w) = None ->
  executables w PLAYBACK = None ->
  run (launchDolphin playback idx rc dt) w = (set_draws S w, Err (NoDolphinFound PLAYBACK)).
Proof.
  intros E X. unfold launchDolphin, launch_playback. cbn. rewrite E. cbn.
  rewrite X. reflexivity.
Qed.

Lemma launch_playback_new w idx rc dt exe :
  i_playback (dolphinInstances w) = None ->
  executables w PLAYBACK = Some exe ->
  run (launchDolphin playback idx rc dt) w =
  run (await (fs_writeFile (fresh_path playback w) (stringify rc))) (playback_created exe w).
Proof.
  intros E X.
  unfold launchDolphin, launch_playback, playback_created, playback_instance,
    spawned, fresh_pid, fresh_path.
  cbn. rewrite E. cbn. rewrite X. cbn. rewrite !truthy_path_join. reflexivity.
Qed.

(** Between the test of the playback slot and the assignment to it the call
    is suspended: resumed once on an empty slot, a playback call stops at an
    [await] with the slot still empty and no process spawned. *)
Lemma playback_suspends_after_test w idx rc dt :
  i_playback (dolphinInstances w) = None ->
  let t0 := (advance (launchDolphin playback idx rc dt) w).2 in
  exists t, (resume t0 w).2 = Yield t /\
    i_playback (dolphinInstances (resume t0 w).1) = None /\
    processes (resume t0 w).1 = processes w.
Proof.
  intros E. unfold launchDolphin, launch_playback. cbn. rewrite E. cbn. eauto.
Qed.

(** And once past the test it does not look at the slot again: whatever the
    world [w'] has become when the call goes on (another call may have filled
    the slot in the meantime), the call spawns a process and assigns the
    slot. *)
Lemma playback_spawns_after_test w idx rc dt w' exe :
  i_playback (dolphinInstances w) = None ->
  executables w' PLAYBACK = Some exe ->
  let t := (resume (advance (launchDolphin playback idx rc dt) w).2 w).2 in
  processes (run t w').1 =
    processes w' ++
      [ {| exe := exe; params := ["-i"; fresh_path playback w] ++ iso_params (isoPath w) |} ] /\
  i_playback (dolphinInstances (run t w').1) =
    Some {| dolphinUseType := playback; index := None; dolphin := Some (fresh_pid w');
            commFilePath := Some (fresh_path playback w) |}.
Proof.
  intros E X. unfold launchDolphin, launch_playback, fresh_path, fresh_pid. cbn.
  rewrite E. cbn. rewrite X. cbn. rewrite !truthy_path_join. cbn.
  destruct rc; cbn; [done|]. destruct writeFile_coerces; done.
Qed.

Lemma run_await {A} (m : Task A) w : run (await m) w = run m w.
Proof.
  unfold await. rewrite run_bind. destruct (run m w) as [w' [a|e]]; reflexivity.
Qed.


Lemma run_all_cons t ts w : run_all (t :: ts) w = run_all ts (run t w).1.
Proof. reflexivity. Qed.




(** *** launchDolphin("netplay", ...) and launchDolphin("config", ...) *)

Lemma launch_netplay_live w idx rc dt inst :
  i_netplay (dolphinInstances w) = Some inst ->
  run (launchDolphin netplay idx rc dt) w = (w, Ok tt).
Proof.
  intros E. unfold launchDolphin, launch_netplay. cbn. rewrite E. reflexivity.
Qed.

Lemma launch_netplay_new w idx rc dt exe :
  i_netplay (dolphinInstances w) = None ->
  executables w NETPLAY = Some exe ->
  run (launchDolphin netplay idx rc dt) w = (netplay_created exe w, Ok tt).
Proof.
  intros E X. unfold launchDolphin, launch_netplay. cbn. rewrite E. cbn.
  rewrite X. reflexivity.
Qed.

Lemma launch_netplay_missing w idx rc dt :
  i_netplay (dolphinInstances w) = None ->
  executables w NETPLAY = None ->
  run (launchDolphin netplay idx rc dt) w = (w, Err (NoDolphinFound NETPLAY)).
Proof.
  intros E X. unfold launchDolphin, launch_netplay. cbn. rewrite E. cbn.
  rewrite X. reflexivity.
Qed.

Lemma launch_config_new w idx rc t exe :
  executables w t = Some exe ->
  run (launchDolphin config idx rc (Some t)) w = (config_created t exe w, Ok tt).
Proof.
  intros X. unfold launchDolphin, launch_config. cbn. rewrite X. reflexivity.
Qed.

Lemma launch_config_missing w idx rc t :
  executables w t = None ->
  run (launchDolphin config idx rc (Some t)) w = (w, Err (NoDolphinFound t)).
Proof.
  intros X. unfold launchDolphin, launch_config. cbn. rewrite X. reflexivity.
Qed.

(** *** launchDolphin("spectate", ...) *)

Lemma launch_spectate_negative w idx rc dt :
  lt_zero idx = true ->
  run (launchDolphin spectate idx rc dt) w = (w, Err (Error "Must have a valid index")).
Proof.
  intros Hneg. unfold launchDolphin, launch_spectate. cbn. by rewrite Hneg.
Qed.

Lemma launch_spectate_live w idx rc dt inst :
  lt_zero idx = false -> live_spectate idx w = Some inst ->
  run (launchDolphin spectate idx rc dt) w =
  match commFilePath inst with
  | Some p => if truthy p then run (await (fs_writeFile p (stringify rc))) w else (w, Ok tt)
  | None => (w, Ok tt)
  end.
Proof.
  intros Hpos L. unfold live_spectate in L.
  unfold launchDolphin, launch_spectate. cbn. rewrite Hpos. cbn.
  destruct (lodash_find (i_spectate (dolphinInstances w)) idx) as [i|]; [|done].
  destruct (has_dolphin i); [|done]. injection L as ->. cbn.
  destruct (commFilePath inst) as [p|]; [|done]. destruct (truthy p); done.
Qed.

Lemma launch_spectate_missing w idx rc dt :
  lt_zero idx = false -> live_spectate idx w = None -> executables w PLAYBACK = None ->
  run (launchDolphin spectate idx rc dt) w = (set_draws S w, Err (NoDolphinFound PLAYBACK)).
Proof.
  intros Hpos L X. unfold live_spectate in L.
  unfold launchDolphin, launch_spectate. cbn. rewrite Hpos. cbn.
  destruct (lodash_find (i_spectate (dolphinInstances w)) idx) as [i|].
  - destruct (has_dolphin i); [done|]. cbn. rewrite X. reflexivity.
  - cbn. rewrite X. reflexivity.
Qed.

Lemma launch_spectate_new w idx rc dt exe :
  lt_zero idx = false -> live_spectate idx w = None -> executables w PLAYBACK = Some exe ->
  run (launchDolphin spectate idx rc dt) w =
  run (await (fs_writeFile (fresh_path spectate w) (stringify rc)))
    (spectate_created idx exe w).
Proof.
  intros Hpos L X. unfold live_spectate in L.
  unfold launchDolphin, launch_spectate, spectate_created, spectate_instance,
    push_spectate, spawned, fresh_pid, fresh_path.
  cbn. rewrite Hpos. cbn.
  destruct (lodash_find (i_spectate (dolphinInstances w)) idx) as [i|].
  - destruct (has_dolphin i); [done|]. cbn. rewrite X. cbn.
    destruct (i_spectate (dolphinInstances w)) eqn:S; cbn;
      rewrite !truthy_path_join; cbn; f_equal;
      unfold set_fsCalls, set_instances, set_closeListeners, set_processes, set_draws;
      cbn; rewrite S; reflexivity.
  - cbn. rewrite X. cbn.
    destruct (i_spectate (dolphinInstances w)) eqn:S; cbn;
      rewrite !truthy_path_join; cbn; f_equal;
      unfold set_fsCalls, set_instances, set_closeListeners, set_processes, set_draws;
      cbn; rewrite S; reflexivity.
Qed.

Lemma index_is_eq idx inst : index_is idx inst = true -> index inst = idx.
Proof.
  unfold index_is. destruct (index inst) as [i|], idx as [j|]; try done.
  by intros ->%Z.eqb_eq.
Qed.

Lemma live_spectate_index idx w inst :
  live_spectate idx w = Some inst ->
  index inst = idx /\ has_dolphin inst = true /\
  exists l, i_spectate (dolphinInstances w) = Some l /\ In inst l.
Proof.
  unfold live_spectate, lodash_find. intros L.
  destruct (i_spectate (dolphinInstances w)) as [l|]; [|done].
  destruct (find (index_is idx) l) as [i|] eqn:F; [|done].
  destruct (has_dolphin i) eqn:D; [|done]. injection L as <-.
  apply find_some in F as [Hin Hidx]. apply index_is_eq in Hidx. eauto.
Qed.

(** C8 as amended. A spectate call with a negative index rejects with the
    error of the "spectate" case and changes nothing.  For any other index
    (a number that is not negative, or none at all: the code makes no test for
    a missing index): when a live instance with that index exists, the
    registry, the processes and the listeners are left as they are and the
    write goes to that instance's comm file; when none exists (and a playback
    executable is found), exactly one process is spawned and one instance
    carrying the index is appended to the spectate collection. *)
Theorem spectate_checks_index_then_reuses_or_appends w idx rc dt :
  let w' := (run (launchDolphin spectate idx rc dt) w).1 in
  (forall i, idx = Some i -> i < 0 ->
     run (launchDolphin spectate idx rc dt) w = (w, Err (Error "Must have a valid index"))) /\
  ((forall i, idx = Some i -> 0 <= i) ->
   forall inst, live_spectate idx w = Some inst ->
     index inst = idx /\
     dolphinInstances w' = dolphinInstances w /\ processes w' = processes w /\
     closeListeners w' = closeListeners w /\
     forall p, commFilePath inst = Some p -> truthy p = true ->
       fsCalls w' = fsCalls w ++ [FsWriteFile p (stringify rc)]) /\
  ((forall i, idx = Some i -> 0 <= i) ->
   live_spectate idx w = None ->
   forall exe, executables w PLAYBACK = Some exe ->
     index (spectate_instance idx w) = idx /\
     i_spectate (dolphinInstances w') =
       Some (default [] (i_spectate (dolphinInstances w)) ++ [spectate_instance idx w]) /\
     processes w' = processes w ++
       [ {| exe := exe; params := ["-i"; fresh_path spectate w] ++ iso_params (isoPath w) |} ] /\
     closeListeners w' = closeListeners w ++
       [ (fresh_pid w, OnCloseSpectate (fresh_path spectate w) idx) ]).
Proof.
  intros w'. subst w'.
  assert (Hlt : (forall i, idx = Some i -> 0 <= i) -> lt_zero idx = false).
  { intros Hpos. destruct idx as [i|]; [|done]. cbn. specialize (Hpos i eq_refl). lia. }
  split; [|split].
  - intros i -> Hneg. apply launch_spectate_negative. cbn. lia.
  - intros Hpos%Hlt inst L. split; [apply (live_spectate_index idx w inst L)|].
    rewrite (launch_spectate_live w idx rc dt inst) by done.
    destruct (commFilePath inst) as [p|]; [|done].
    destruct (truthy p) eqn:T.
    + rewrite run_await.
      destruct (writeFile_frame p (stringify rc) w) as (Hi & Hp & Hl & _).
      do 3 (split; [done|]). intros p' [= <-] _. apply writeFile_calls.
    + do 3 (split; [done|]). intros p' [= <-]. congruence.
  - intros Hpos%Hlt L exe X.
    rewrite (launch_spectate_new w idx rc dt exe), run_await by done.
    destruct (writeFile_frame (fresh_path spectate w) (stringify rc)
                (spectate_created idx exe w)) as (Hi & Hp & Hl & _).
    cbv zeta in Hi, Hp, Hl. rewrite Hi, Hp, Hl.
    split; [done|]. split; [|done].
    unfold spectate_created, push_spectate. cbn.
    destruct (i_spectate (dolphinInstances w)); reflexivity.
Qed.

(** C10. A netplay call, or a config call that names a build, makes no use of
    the payload: the call with a payload has the outcome of the call without,
    the disk is as before and no file-system call was made; when the build is
    installed the call succeeds, and the instance it leaves in its slot is
    either the one already there (netplay) or a new one with no comm file
    path. *)
Theorem payload_discarded_without_comm_file w u idx payload dt t :
  plain_variant u dt = Some t ->
  let w' := (run (launchDolphin u idx (Some payload) dt) w).1 in
  run (launchDolphin u idx (Some payload) dt) w = run (launchDolphin u idx None dt) w /\
  files w' = files w /\ fsCalls w' = fsCalls w /\
  forall exe, executables w t = Some exe ->
    (run (launchDolphin u idx (Some payload) dt) w).2 = Ok tt /\
    ((w' = w /\ u = netplay /\ is_Some (i_netplay (dolphinInstances w))) \/
     (plain_slot u t (dolphinInstances w') = Some (plain_instance u w) /\
      commFilePath (plain_instance u w) = None /\
      length (processes w') = S (length (processes w)))).
Proof.
  intros V w'. subst w'.
  split; [destruct u; try discriminate V; reflexivity|].
  destruct u; try discriminate V; cbn in V.
  - (* config *)
    subst dt. destruct (executables w t) as [exe|] eqn:X.
    + rewrite (launch_config_new w idx _ t exe) by done.
      split; [done|]. split; [done|]. intros exe' _. split; [done|]. right.
      unfold config_created, spawned. destruct t; cbn; rewrite length_app; cbn;
        (split; [done|]); (split; [done|]); lia.
    + rewrite launch_config_missing by done. done.
  - (* netplay *)
    injection V as <-.
    destruct (i_netplay (dolphinInstances w)) as [inst|] eqn:E.
    + rewrite (launch_netplay_live w idx _ dt inst) by done.
      split; [done|]. split; [done|]. intros exe _. split; [done|]. left.
      eauto.
    + destruct (executables w NETPLAY) as [exe|] eqn:X.
      * rewrite (launch_netplay_new w idx _ dt exe) by done.
        split; [done|]. split; [done|]. intros exe' _. split; [done|]. right.
        unfold netplay_created, spawned. cbn. rewrite length_app. cbn.
        (split; [done|]); (split; [done|]); lia.
      * rewrite launch_netplay_missing by done. done.
Qed.

(** C4 as amended. Whenever a playback or spectate call finds or creates an
    instance with comm file [p], it calls [fs.writeFile] on [p] exactly once
    with [JSON.stringify(replayComm)], whether or not a payload was given;
    when a payload was given the call succeeds and [p] then holds the
    serialized payload, the rest of the disk being as before. *)
Theorem comm_file_written_for_served_instance w u idx rc dt p :
  serves w u idx p ->
  let w' := (run (launchDolphin u idx rc dt) w).1 in
  fsCalls w' = fsCalls w ++ [FsWriteFile p (stringify rc)] /\
  forall payload, rc = Some payload ->
    (run (launchDolphin u idx rc dt) w).2 = Ok tt /\
    files w' = <[p := JSON_stringify payload]> (files w).
Proof.
  intros Hs w'. subst w'.
  destruct Hs as [idx inst p E Ep Et|idx exe E X|idx inst p Hpos L Ep Et|idx exe Hpos L X].
  - rewrite (launch_playback_live w idx rc dt inst p), run_await by done.
    split; [apply writeFile_calls|]. intros payload ->. done.
  - rewrite (launch_playback_new w idx rc dt exe), run_await by done.
    split; [by rewrite writeFile_calls|]. intros payload ->. done.
  - rewrite (launch_spectate_live w idx rc dt inst), Ep, Et, run_await by done.
    split; [apply writeFile_calls|]. intros payload ->. done.
  - rewrite (launch_spectate_new w idx rc dt exe), run_await by done.
    split; [by rewrite writeFile_calls|]. intros payload ->. done.
Qed.

(** *** The "close" listeners *)

Lemma run_unlink_present p c w :
  files w !! p = Some c ->
  run (fs_unlink p) w =
  (set_files (delete p) (set_fsCalls (fun l => l ++ [FsUnlink p]) w), Ok tt).
Proof. intros F. unfold fs_unlink. cbn. rewrite F. reflexivity. Qed.

Lemma run_unlink_absent p w :
  files w !! p = None ->
  run (fs_unlink p) w = (set_fsCalls (fun l => l ++ [FsUnlink p]) w, Err (ENOENT p)).
Proof. intros F. unfold fs_unlink. cbn. rewrite F. reflexivity. Qed.


Lemma listeners_none (ls : list (Pid * CloseHandler)) (pid : Pid) :
  ~ In pid (map fst ls) ->
  map snd (List.filter (fun l => Nat.eqb (fst l) pid) ls) = [].
Proof.
  induction ls as [|[q g] ls IH]; [done|]. cbn. intros Hni.
  destruct (Nat.eqb_spec q pid) as [->|_]; [exfalso; auto|]. auto.
Qed.

Lemma listeners_of_unique pid h w :
  NoDup (map fst (closeListeners w)) -> In (pid, h) (closeListeners w) ->
  listeners_of pid w = [h].
Proof.
  unfold listeners_of. induction (closeListeners w) as [|[q g] ls IH]; [done|].
  cbn. intros ND Hin. apply NoDup_cons in ND as [Hq ND].
  rewrite list_elem_of_In in Hq.
  destruct Hin as [[= -> ->]|Hin].
  - rewrite Nat.eqb_refl. cbn. f_equal. by apply listeners_none.
  - destruct (Nat.eqb_spec q pid) as [->|_]; [|by apply IH].
    exfalso. apply Hq. change pid with (fst (pid, h)). by apply in_map.
Qed.

Lemma close_playback_present p c w :
  files w !! p = Some c ->
  run (closeHandler (OnClosePlayback p)) w =
  (set_instances (with_playback None)
     (set_files (delete p) (set_fsCalls (fun l => l ++ [FsUnlink p]) w)), Ok tt).
Proof. intros F. unfold closeHandler, fs_unlink. cbn. rewrite F. reflexivity. Qed.

Lemma close_playback_absent p w :
  files w !! p = None ->
  run (closeHandler (OnClosePlayback p)) w =
  (set_fsCalls (fun l => l ++ [FsUnlink p]) w, Err (ENOENT p)).
Proof. intros F. unfold closeHandler, fs_unlink. cbn. rewrite F. reflexivity. Qed.

Lemma close_spectate_present p idx c w :
  files w !! p = Some c ->
  run (closeHandler (OnCloseSpectate p idx)) w =
  (set_instances
     (fun r => match i_spectate r with
               | Some l => with_spectate (Some (lodash_remove l (index_is idx))) r
               | None => r
               end)
     (set_files (delete p) (set_fsCalls (fun l => l ++ [FsUnlink p]) w)), Ok tt).
Proof.
  intros F. unfold closeHandler, fs_unlink. cbn. rewrite F. cbn.
  destruct (i_spectate (dolphinInstances w)) eqn:S; cbn; f_equal;
    unfold set_instances, set_files, set_fsCalls; cbn; rewrite S; [done|].
  by destruct (dolphinInstances w).
Qed.

Lemma close_spectate_absent p idx w :
  files w !! p = None ->
  run (closeHandler (OnCloseSpectate p idx)) w =
  (set_fsCalls (fun l => l ++ [FsUnlink p]) w, Err (ENOENT p)).
Proof. intros F. unfold closeHandler, fs_unlink. cbn. rewrite F. reflexivity. Qed.

Lemma emit_close_single pid h w :
  listeners_of pid w = [h] -> emit_close pid w = (run (closeHandler h) w).1.
Proof. unfold emit_close. by intros ->. Qed.


(** C6 as amended. The removal run at process exit is a plain [fs.unlink]: it
    succeeds and removes the file when the file exists; when the file is
    already absent it rejects with ENOENT, and the listener that awaited it
    stops there, registry and disk as they were. *)
Theorem unlink_rejects_when_file_absent w p :
  (is_Some (files w !! p) ->
     (run (fs_unlink p) w).2 = Ok tt /\ files (run (fs_unlink p) w).1 = delete p (files w)) /\
  (files w !! p = None ->
     (run (fs_unlink p) w).2 = Err (ENOENT p) /\
     (forall h, h = OnClosePlayback p \/ (exists idx, h = OnCloseSpectate p idx) ->
        (run (closeHandler h) w).2 = Err (ENOENT p) /\
        dolphinInstances (run (closeHandler h) w).1 = dolphinInstances w /\
        files (run (closeHandler h) w).1 = files w)).
Proof.
  split.
  - intros [c F]. by rewrite (run_unlink_present p c).
  - intros F. rewrite run_unlink_absent by done. split; [done|].
    intros h [->|[idx ->]].
    + by rewrite close_playback_absent.
    + by rewrite close_spectate_absent.
Qed.

(** *** The wiring is an invariant of calls and exits made one at a time *)

Lemma wired_same w w' :
  dolphinInstances w' = dolphinInstances w -> processes w' = processes w ->
  closeListeners w' = closeListeners w -> wired w -> wired w'.
Proof.
  intros Hi Hp Hl [W1 W2 W3 W4]. constructor; rewrite ?Hi, ?Hp, ?Hl; auto.
Qed.

Lemma wired_grow w w' pr h :
  wired w ->
  processes w' = processes w ++ [pr] ->
  closeListeners w' = closeListeners w ++ [(fresh_pid w, h)] ->
  (forall inst, i_playback (dolphinInstances w') = Some inst ->
     i_playback (dolphinInstances w) = Some inst \/
     exists p, h = OnClosePlayback p /\ dolphin inst = Some (fresh_pid w) /\
               commFilePath inst = Some p) ->
  (forall l' inst, i_spectate (dolphinInstances w') = Some l' -> In inst l' ->
     (exists l, i_spectate (dolphinInstances w) = Some l /\ In inst l) \/
     exists p, h = OnCloseSpectate p (index inst) /\
               dolphin inst = Some (fresh_pid w) /\ commFilePath inst = Some p) ->
  wired w'.
Proof.
  intros [W1 W2 W3 W4] Hp Hl Hpb Hsp. constructor.
  - rewrite Hp, Hl, length_app. cbn. apply Forall_app. split.
    + eapply Forall_impl; [exact W1|]. cbn. intros; lia.
    + constructor; [|constructor]. unfold fresh_pid. cbn. lia.
  - rewrite Hl, map_app. cbn. apply NoDup_app. split; [done|]. split.
    + intros q Hq Hq'. apply list_elem_of_singleton in Hq'. subst q.
      apply list_elem_of_In, in_map_iff in Hq as ([q' g] & Hq' & Hin).
      cbn in Hq'. subst q'.
      rewrite Forall_forall in W1. apply list_elem_of_In, W1 in Hin. cbn in Hin.
      unfold fresh_pid in Hin. lia.
    + apply NoDup_singleton.
  - intros inst E. destruct (Hpb inst E) as [E'|(p & -> & D & C)].
    + destruct (W3 inst E') as (pid & p & D & C & Hin).
      exists pid, p. rewrite Hl. repeat split; auto using in_or_app.
    + exists (fresh_pid w), p. rewrite Hl. repeat split; auto.
      apply in_or_app. right. by left.
  - intros l' inst E Hin. destruct (Hsp l' inst E Hin) as [(l & E' & Hin')|(p & -> & D & C)].
    + destruct (W4 l inst E' Hin') as (pid & p & D & C & Hin'').
      exists pid, p. rewrite Hl. repeat split; auto using in_or_app.
    + exists (fresh_pid w), p. rewrite Hl. repeat split; auto.
      apply in_or_app. right. by left.
Qed.

Lemma wired_initial w :
  dolphinInstances w = no_instances -> closeListeners w = [] -> wired w.
Proof.
  intros Hi Hl. constructor; rewrite ?Hi, ?Hl; cbn; try done; constructor.
Qed.

Lemma wired_after_write p d w : wired w -> wired (run (fs_writeFile p d) w).1.
Proof.
  destruct (writeFile_frame p d w) as (Hi & Hp & Hl & _). by apply wired_same.
Qed.

Lemma wired_launch u idx rc dt w :
  wired w -> wired (run (launchDolphin u idx rc dt) w).1.
Proof.
  intros W. destruct u.
  - (* playback *)
    destruct (i_playback (dolphinInstances w)) as [inst|] eqn:E.
    + destruct (launch_playback_keeps w idx rc dt inst E) as (Hi & Hp & Hl).
      by apply (wired_same w).
    + destruct (executables w PLAYBACK) as [exe|] eqn:X.
      * rewrite (launch_playback_new w idx rc dt exe), run_await by done.
        apply wired_after_write.
        eapply (wired_grow (set_draws S w)); [by apply (wired_same w)|done|done|..].
        -- intros inst [= <-]. right. eauto.
        -- intros l' inst E' Hin. left. eauto.
      * rewrite launch_playback_missing by done. by apply (wired_same w).
  - (* spectate *)
    destruct (lt_zero idx) eqn:Hpos.
    { by rewrite launch_spectate_negative. }
    destruct (live_spectate idx w) as [inst|] eqn:L.
    + rewrite (launch_spectate_live w idx rc dt inst) by done.
      destruct (commFilePath inst) as [p|]; [|done].
      destruct (truthy p); [|done]. rewrite run_await. by apply wired_after_write.
    + destruct (executables w PLAYBACK) as [exe|] eqn:X.
      * rewrite (launch_spectate_new w idx rc dt exe), run_await by done.
        apply wired_after_write.
        eapply (wired_grow (set_draws S w)); [by apply (wired_same w)|done|done|..].
        -- intros inst E'. left. revert E'. unfold spectate_created, push_spectate. cbn.
           by destruct (i_spectate (dolphinInstances w)).
        -- intros l' inst. unfold spectate_created, push_spectate. cbn.
           destruct (i_spectate (dolphinInstances w)) as [l|] eqn:S; cbn.
           ++ intros [= <-] [Hin|[<-|[]]]%in_app_or; [left; eauto|].
              right. eexists. eauto.
           ++ intros [= <-] [<-|[]]. right. eexists. eauto.
      * rewrite launch_spectate_missing by done. by apply (wired_same w).
  - (* config *)
    destruct dt as [t|]; [|done].
    destruct (executables w t) as [exe|] eqn:X.
    + rewrite (launch_config_new w idx rc t exe) by done.
      eapply (wired_grow w); [done|done|done|..].
      * intros inst E. left. revert E. by destruct t.
      * intros l' inst E Hin. left. exists l'. split; [|done]. revert E. by destruct t.
    + by rewrite launch_config_missing.
  - (* netplay *)
    destruct (i_netplay (dolphinInstances w)) as [inst|] eqn:E.
    + by rewrite (launch_netplay_live w idx rc dt inst).
    + destruct (executables w NETPLAY) as [exe|] eqn:X.
      * rewrite (launch_netplay_new w idx rc dt exe) by done.
        eapply (wired_grow w); [done|done|done|..]; intros; left; eauto.
      * by rewrite launch_netplay_missing.
Qed.

Lemma wired_close h w : wired w -> wired (run (closeHandler h) w).1.
Proof.
  intros W. destruct h as [p|p idx| |c].
  - destruct (files w !! p) as [c|] eqn:F.
    + rewrite (close_playback_present p c) by done. destruct W as [W1 W2 W3 W4].
      constructor; cbn; auto. done.
    + rewrite close_playback_absent by done. by apply (wired_same w).
  - destruct (files w !! p) as [c|] eqn:F.
    + rewrite (close_spectate_present p idx c) by done. destruct W as [W1 W2 W3 W4].
      constructor; cbn; auto.
      * intros inst. destruct (i_spectate (dolphinInstances w)); cbn; auto.
      * intros l' inst. destruct (i_spectate (dolphinInstances w)) as [l|] eqn:S; cbn.
        -- intros [= <-] [Hin _]%filter_In. eauto.
        -- rewrite S. done.
    + rewrite close_spectate_absent by done. by apply (wired_same w).
  - destruct W as [W1 W2 W3 W4]. constructor; cbn; auto.
  - destruct W as [W1 W2 W3 W4]. constructor; destruct c; cbn; auto.
Qed.

Lemma wired_emit_close pid w : wired w -> wired (emit_close pid w).
Proof.
  unfold emit_close. generalize (listeners_of pid w). intros hs. revert w.
  induction hs as [|h hs IH]; intros w W; [done|]. cbn. apply IH. by apply wired_close.
Qed.

(** The "config" case reads no slot: a call made while the slot is occupied
    starts another process and replaces the instance in the slot. *)
Lemma launch_config_twice w idx rc idx' rc' t exe :
  executables w t = Some exe ->
  let w1 := (run (launchDolphin config idx rc (Some t)) w).1 in
  let w2 := (run (launchDolphin config idx' rc' (Some t)) w1).1 in
  config_slot (configureType_of t) (dolphinInstances w1) = Some (plain_instance config w) /\
  config_slot (configureType_of t) (dolphinInstances w2) = Some (plain_instance config w1) /\
  fresh_pid w1 = S (fresh_pid w) /\
  processes w2 = processes w ++ [ {| exe := exe; params := [] |}; {| exe := exe; params := [] |} ].
Proof.
  intros X w1 w2. subst w1 w2.
  rewrite (launch_config_new w _ _ _ exe) by done. cbn [fst].
  rewrite (launch_config_new _ _ _ _ exe) by done. cbn [fst].
  unfold config_created, spawned, fresh_pid. destruct t; cbn;
    rewrite ?length_app, <- ?app_assoc; cbn; repeat split; lia.
Qed.

(** C7 as amended. A config call with no [dolphinType] rejects with the error
    thrown in the "config" case, whose message is the one written there, and
    leaves the whole world, registry included, as it was: run alone, and also
    when other continuations run while the call is suspended at its settings
    read (making the call changes nothing, and whatever the world [w'] is
    when the call is resumed, the call settles with that error and leaves
    [w'] as it finds it). *)
Theorem config_without_type_rejects w w' idx rc :
  let call := launchDolphin config idx rc None in
  run call w = (w, Err (Error "Must define a dolphin type for configuration")) /\
  (advance call w).1 = w /\
  resume (advance call w).2 w' =
    (w', Throw (Error "Must define a dolphin type for configuration")).
Proof.
  intros call. subst call. unfold launchDolphin, launch_config.
  split; [|split].
  - rewrite run_bind, run_await. reflexivity.
  - reflexivity.
  - reflexivity.
Qed.

End ManagerFacts.

(** C1, at a concrete input: two config calls for the playback build, made one
    after the other on a fresh manager with no process exit in between.  The
    second call does not find the instance of the first: it spawns a second
    process and stores the new handle in [configPlayback]. *)
Theorem config_relaunch_spawns_again :
  let call := launchDolphin (H := node14_host) config (Some 0) None (Some PLAYBACK) in
  let w1 := (run call fresh_world).1 in
  let w2 := (run call w1).1 in
  i_configPlayback (dolphinInstances w1) =
    Some {| dolphinUseType := config; index := None; dolphin := Some 0%nat;
            commFilePath := None |} /\
  i_configPlayback (dolphinInstances w2) =
    Some {| dolphinUseType := config; index := None; dolphin := Some 1%nat;
            commFilePath := None |} /\
  length (processes w1) = 1%nat /\ length (processes w2) = 2%nat.
Proof. repeat split; reflexivity. Qed.

(** C7, the claim as worded: the call rejects, but the message of its error is
    not the one the claim quotes. *)
Lemma config_without_type_message :
  (run (launchDolphin (H := node14_host) config (Some 0) None None) fresh_world).2 =
    Err (Error "Must define a dolphin type for configuration") /\
  (run (launchDolphin (H := node14_host) config (Some 0) None None) fresh_world).2 <>
    Err (Error "must define a launch variant for configuration").
Proof. split; [reflexivity|discriminate]. Qed.

(** C3, at a concrete input: two playback calls made back to back on a fresh
    manager.  The first call is resumed twice: it has read the empty slot,
    drawn its comm file name and is waiting for [findDolphinExecutable].  The
    second call is then resumed: it reads the slot, still empty, and draws a
    name of its own.  From there the two calls take turns to their ends:
    each spawns a process, and the one that assigns the slot last replaces
    the instance of the other. *)
Theorem overlapping_playback_calls_spawn_twice :
  let call := Launch playback (Some 0) (Some sample_payload) None in
  let first_waiting :=
    play (H := node14_host) [call; call; Resume 0; Resume 0]%nat
      {| world := fresh_world; tasks := [] |} in
  let both_past_the_test := play (H := node14_host) [Resume 1%nat] first_waiting in
  let settled :=
    play (H := node14_host)
      [Resume 0; Resume 1; Resume 0; Resume 1; Resume 0; Resume 1; Resume 1]%nat
      both_past_the_test in
  ((exists t, tasks first_waiting !! 0%nat = Some (Yield t)) /\
   draws (world first_waiting) = 1%nat /\
   i_playback (dolphinInstances (world first_waiting)) = None /\
   processes (world first_waiting) = []) /\
  ((exists t, tasks both_past_the_test !! 1%nat = Some (Yield t)) /\
   draws (world both_past_the_test) = 2%nat /\
   i_playback (dolphinInstances (world both_past_the_test)) = None /\
   processes (world both_past_the_test) = []) /\
  (tasks settled = [Ret tt; Ret tt] /\
   length (processes (world settled)) = 2%nat /\
   dolphin <$> i_playback (dolphinInstances (world settled)) = Some (Some 1%nat)).
Proof.
  split; [|split].
  - split; [eexists; vm_compute; reflexivity|]. repeat split; vm_compute; reflexivity.
  - split; [eexists; vm_compute; reflexivity|]. repeat split; vm_compute; reflexivity.
  - repeat split; vm_compute; reflexivity.
Qed.

(** C4, the claim as worded: a playback call without payload on a fresh
    manager.  The write is made all the same, with [undefined] data: on a host
    that rejects such data the call fails, on a host that coerces it the comm
    file is written.  In neither case does the call succeed with the disk
    untouched. *)
Lemma no_payload_still_writes :
  let strict :=
    run (launchDolphin (H := node14_host) playback (Some 0) None None) fresh_world in
  let coercing :=
    run (launchDolphin (H := node12_host) playback (Some 0) None None) fresh_world in
  (fsCalls strict.1 = [FsWriteFile "/tmp/slippi-playback-c0ffee0.txt" None] /\
   strict.2 = Err ERR_INVALID_ARG_TYPE) /\
  (fsCalls coercing.1 = [FsWriteFile "/tmp/slippi-playback-c0ffee0.txt" None] /\
   files coercing.1 !! "/tmp/slippi-playback-c0ffee0.txt" = Some "undefined") /\
  ~ (strict.2 = Ok tt /\ files strict.1 = files fresh_world) /\
  ~ (coercing.2 = Ok tt /\ files coercing.1 = files fresh_world).
Proof.
  cbv zeta. split; [|split; [|split]].
  - split; vm_compute; reflexivity.
  - split; vm_compute; reflexivity.
  - intros [E _]. vm_compute in E. discriminate E.
  - intros [_ E].
    apply (f_equal (fun m : gmap string string => m !! "/tmp/slippi-playback-c0ffee0.txt")) in E.
    vm_compute in E. discriminate E.
Qed.

(** The claim of C4 holds where a payload is given. *)
Lemma comm_file_written_witness :
  let r := run (launchDolphin (H := node14_host) playback (Some 0) (Some sample_payload) None)
             fresh_world in
  serves (H := node14_host) fresh_world playback (Some 0)
    "/tmp/slippi-playback-c0ffee0.txt" /\
  r.2 = Ok tt /\
  files r.1 =
    <["/tmp/slippi-playback-c0ffee0.txt" := sample_stringify sample_payload]>
      (files fresh_world).
Proof.
  assert (S : serves (H := node14_host) fresh_world playback (Some 0)
                "/tmp/slippi-playback-c0ffee0.txt").
  { apply (serves_playback_new (H := node14_host) fresh_world (Some 0)
             "/opt/playback/dolphin"); reflexivity. }
  split; [exact S|].
  exact (proj2 (comm_file_written_for_served_instance (H := node14_host)
                  fresh_world playback (Some 0) (Some sample_payload) None _ S)
           sample_payload eq_refl).
Defined.



(** C6, the claim as worded: unlinking a file that is not there rejects, and
    so does the second of two unlinks of the same file. *)
Lemma unlink_twice_rejects :
  let w := set_files (insert "/tmp/comm.txt" "{}") fresh_world in
  (run (fs_unlink "/tmp/comm.txt") fresh_world).2 = Err (ENOENT "/tmp/comm.txt") /\
  (run (fs_unlink "/tmp/comm.txt") w).2 = Ok tt /\
  (run (fs_unlink "/tmp/comm.txt") (run (fs_unlink "/tmp/comm.txt") w).1).2 =
    Err (ENOENT "/tmp/comm.txt").
Proof. repeat split; vm_compute; reflexivity. Qed.

Lemma unlink_rejects_witness :
  let w := set_files (insert "/tmp/comm.txt" "{}") fresh_world in
  ((run (fs_unlink "/tmp/comm.txt") w).2 = Ok tt /\
   files (run (fs_unlink "/tmp/comm.txt") w).1 = delete "/tmp/comm.txt" (files w)) /\
  (run (fs_unlink "/tmp/comm.txt") fresh_world).2 = Err (ENOENT "/tmp/comm.txt") /\
  (run (closeHandler (OnClosePlayback "/tmp/comm.txt")) fresh_world).2 =
    Err (ENOENT "/tmp/comm.txt").
Proof.
  cbv zeta. split; [|split].
  - apply (proj1 (unlink_rejects_when_file_absent
                    (set_files (insert "/tmp/comm.txt" "{}") fresh_world) "/tmp/comm.txt")).
    eexists. vm_compute. reflexivity.
  - apply (proj2 (unlink_rejects_when_file_absent fresh_world "/tmp/comm.txt")).
    vm_compute. reflexivity.
  - apply (proj2 (unlink_rejects_when_file_absent fresh_world "/tmp/comm.txt")
             ltac:(vm_compute; reflexivity)).
    left. reflexivity.
Defined.

(** C8, the claim as worded: a spectate call that leaves the index out is not
    rejected.  [undefined < 0] is false, no instance has that index, so a
    process is spawned and an instance without index is stored; the call
    succeeds. *)
Lemma spectate_without_index_is_not_rejected :
  let r := run (launchDolphin (H := node14_host) spectate None (Some sample_payload) None)
             fresh_world in
  r.2 = Ok tt /\
  length (processes r.1) = 1%nat /\
  i_spectate (dolphinInstances r.1) =
    Some [ {| dolphinUseType := spectate; index := None; dolphin := Some 0%nat;
              commFilePath := Some "/tmp/slippi-spectate-c0ffee0.txt" |} ].
Proof. repeat split; vm_compute; reflexivity. Qed.

(** Checks of C8 at concrete inputs: a negative index, an index with a live
    instance, an index without one. *)
Lemma spectate_index_witness :
  let w1 :=
    (run (launchDolphin (H := node14_host) spectate (Some 3) (Some sample_payload) None)
       fresh_world).1 in
  let w2 :=
    (run (launchDolphin (H := node14_host) spectate (Some 3) (Some sample_payload) None)
       w1).1 in
  run (launchDolphin (H := node14_host) spectate (Some (-1)) None None) fresh_world =
    (fresh_world, Err (Error "Must have a valid index")) /\
  (i_spectate (dolphinInstances w1) =
     Some [spectate_instance (H := node14_host) (Some 3) fresh_world] /\
   length (processes w1) = 1%nat) /\
  (dolphinInstances w2 = dolphinInstances w1 /\ processes w2 = processes w1).
Proof.
  cbv zeta.
  assert (P : forall i : Z, Some 3 = Some i -> 0 <= i) by (intros i [= <-]; lia).
  split; [|split].
  - apply (proj1 (spectate_checks_index_then_reuses_or_appends (H := node14_host)
                    fresh_world (Some (-1)) None None) (-1) eq_refl). lia.
  - destruct (proj2 (proj2 (spectate_checks_index_then_reuses_or_appends
                              (H := node14_host) fresh_world (Some 3)
                              (Some sample_payload) None))
                P eq_refl "/opt/playback/dolphin" eq_refl) as (_ & Hs & Hp & _).
    split; [exact Hs|]. rewrite Hp. reflexivity.
  - destruct (proj1 (proj2 (spectate_checks_index_then_reuses_or_appends
      (H := node14_host)
      (run (launchDolphin (H := node14_host) spectate (Some 3) (Some sample_payload) None)
         fresh_world).1 (Some 3) (Some sample_payload) None))
      P (spectate_instance (H := node14_host) (Some 3) fresh_world)
      ltac:(vm_compute; reflexivity)) as (_ & Hi & Hp & _).
    split; [exact Hi|exact Hp].
Defined.

(** Checks of C10 at concrete inputs: a netplay call and a config call, both
    with a payload. *)
Lemma payload_discarded_witness :
  let n := run (launchDolphin (H := node14_host) netplay (Some 0) (Some sample_payload) None)
             fresh_world in
  let c := run (launchDolphin (H := node14_host) config (Some 0) (Some sample_payload)
                  (Some PLAYBACK)) fresh_world in
  (n.2 = Ok tt /\ files n.1 = files fresh_world /\ fsCalls n.1 = fsCalls fresh_world) /\
  (c.2 = Ok tt /\ files c.1 = files fresh_world /\ fsCalls c.1 = fsCalls fresh_world).
Proof.
  cbv zeta. split.
  - destruct (payload_discarded_without_comm_file (H := node14_host) fresh_world
                netplay (Some 0) sample_payload None NETPLAY eq_refl)
      as (_ & Hf & Hc & Hr).
    destruct (Hr "/opt/netplay/dolphin" eq_refl) as [Hok _]. auto.
  - destruct (payload_discarded_without_comm_file (H := node14_host) fresh_world
                config (Some 0) sample_payload (Some PLAYBACK) PLAYBACK eq_refl)
      as (_ & Hf & Hc & Hr).
    destruct (Hr "/opt/playback/dolphin" eq_refl) as [Hok _]. auto.
Defined.


(** ** Facts about the installation *)

Module InstallationFacts.
Import Installation.

Section Validate.
Variable semver_lt : string -> string -> option bool.
Variable type_name : DolphinLaunchType -> string.
Variable dolphinLaunchType : DolphinLaunchType.
Variable installationFolder : string.

Lemma add_log_app ms ms' w : add_log ms' (add_log ms w) = add_log (ms ++ ms') w.
Proof. unfold add_log. cbn. by rewrite <- app_assoc. Qed.

Lemma add_log_executable ms w : executable (add_log ms w) = executable w.
Proof. reflexivity. Qed.

Lemma add_log_stdout ms w : version_stdout (add_log ms w) = version_stdout w.
Proof. reflexivity. Qed.

Ltac run_validate :=
  unfold validate, validate_try, _isOutOfDate, findDolphinExecutable,
    fetchLatestVersion, try_catch, of_option, log, mbind, M_bind, mret, M_ret,
    bind, ret.

Lemma validate_fetch_failed w :
  latest w dolphinLaunchType = None ->
  validate semver_lt type_name dolphinLaunchType installationFolder w =
  (w, Failed FetchFailed).
Proof. intros L. run_validate. by rewrite L. Qed.

Lemma validate_current w info exe v :
  latest w dolphinLaunchType = Some info ->
  executable w = Some exe -> version_stdout w = Some v ->
  semver_lt v (version info) = Some false ->
  validate semver_lt type_name dolphinLaunchType installationFolder w =
  (add_log [found_message type_name dolphinLaunchType;
            checking_message type_name dolphinLaunchType; no_update_message] w,
   Done tt).
Proof.
  intros L X V S. run_validate.
  rewrite L, X, !add_log_executable, X, !add_log_stdout, V, S. cbn.
  by rewrite !add_log_app.
Qed.

Lemma validate_behind w info exe v :
  latest w dolphinLaunchType = Some info ->
  executable w = Some exe -> version_stdout w = Some v ->
  semver_lt v (version info) = Some true ->
  validate semver_lt type_name dolphinLaunchType installationFolder w =
  downloadAndInstall type_name dolphinLaunchType installationFolder (Some info) None
    (add_log [found_message type_name dolphinLaunchType;
              checking_message type_name dolphinLaunchType;
              outdated_message type_name dolphinLaunchType] w).
Proof.
  intros L X V S. run_validate.
  rewrite L, X, !add_log_executable, X, !add_log_stdout, V, S. cbn.
  by rewrite !add_log_app.
Qed.

Lemma validate_no_executable w info :
  latest w dolphinLaunchType = Some info ->
  executable w = None ->
  validate semver_lt type_name dolphinLaunchType installationFolder w =
  downloadAndInstall type_name dolphinLaunchType installationFolder (Some info) None
    (add_log [not_found_message type_name dolphinLaunchType] w).
Proof. intros L X. run_validate. rewrite L, X. reflexivity. Qed.

Lemma validate_unreadable_version w info exe :
  latest w dolphinLaunchType = Some info ->
  executable w = Some exe ->
  version_stdout w = None \/
    (exists v, version_stdout w = Some v /\ semver_lt v (version info) = None) ->
  validate semver_lt type_name dolphinLaunchType installationFolder w =
  downloadAndInstall type_name dolphinLaunchType installationFolder (Some info) None
    (add_log [found_message type_name dolphinLaunchType;
              checking_message type_name dolphinLaunchType;
              not_found_message type_name dolphinLaunchType] w).
Proof.
  intros L X [V|(v & V & S)]; run_validate;
    rewrite L, X, !add_log_executable, X, !add_log_stdout, V, ?S; cbn;
    by rewrite !add_log_app.
Qed.

(** C9. With the latest release fetched: when an executable is found and the
    version it reports is not less than the latest, [validate] logs the
    no-update message and returns with no download, removal or install made;
    when the reported version is less, [validate] continues as
    [downloadAndInstall] on the fetched release; and when the executable is not
    found, or its version cannot be read or compared, [validate] logs that
    and continues as [downloadAndInstall] as well, the failure itself not
    being the outcome of the call. *)
Theorem validate_updates_only_when_behind w info :
  latest w dolphinLaunchType = Some info ->
  let validate := validate semver_lt type_name dolphinLaunchType installationFolder in
  let downloadAndInstall :=
    downloadAndInstall type_name dolphinLaunchType installationFolder in
  let found := found_message type_name dolphinLaunchType in
  let checking := checking_message type_name dolphinLaunchType in
  (forall exe v,
     executable w = Some exe -> version_stdout w = Some v ->
     semver_lt v (version info) = Some false ->
     (validate w).2 = Done tt /\
     logged (validate w).1 = logged w ++ [found; checking; no_update_message] /\
     effects (validate w).1 = effects w) /\
  (forall exe v,
     executable w = Some exe -> version_stdout w = Some v ->
     semver_lt v (version info) = Some true ->
     validate w =
     downloadAndInstall (Some info) None
       (add_log [found; checking; outdated_message type_name dolphinLaunchType] w)) /\
  (executable w = None ->
     validate w =
     downloadAndInstall (Some info) None
       (add_log [not_found_message type_name dolphinLaunchType] w)) /\
  (forall exe,
     executable w = Some exe ->
     version_stdout w = None \/
       (exists v, version_stdout w = Some v /\ semver_lt v (version info) = None) ->
     validate w =
     downloadAndInstall (Some info) None
       (add_log [found; checking; not_found_message type_name dolphinLaunchType] w)) /\
  String.prefix "no update found" (lowercase no_update_message) = true.
Proof.
  intros L. cbv zeta. split; [|split; [|split; [|split]]].
  - intros exe v X V S. by rewrite (validate_current w info exe v).
  - intros exe v. by apply validate_behind.
  - by apply validate_no_executable.
  - intros exe. by apply validate_unreadable_version.
  - reflexivity.
Qed.

End Validate.

(** Checks of C9 on a machine whose installed version is the latest, is
    behind, cannot be parsed, and on a machine with no executable. *)
Lemma validate_witness :
  let validate := validate sample_lt sample_type_name NETPLAY "/opt/slippi/netplay" in
  ((validate up_to_date).2 = Done tt /\
   logged (validate up_to_date).1 =
     ["Found existing netplay Dolphin executable.";
      "Checking if we need to update netplay Dolphin"; "No update found..."] /\
   effects (validate up_to_date).1 = []) /\
  effects (validate (with_stdout (Some "2.3.0") up_to_date)).1 =
    [Download "https://example.org/dolphin.zip" "/home/u/.config/Slippi Launcher/temp";
     Install "linux" "/home/u/.config/Slippi Launcher/temp/dolphin.zip"
       "/opt/slippi/netplay"] /\
  (validate (with_stdout (Some "Faster Melee 2.3.1") up_to_date)).2 = Done tt /\
  (validate (with_executable None up_to_date)).2 = Done tt.
Proof.
  cbv zeta.
  pose proof (validate_updates_only_when_behind sample_lt sample_type_name NETPLAY
                "/opt/slippi/netplay") as T.
  split; [|split; [|split]].
  - exact (proj1 (T up_to_date _ eq_refl) _ "2.3.1" eq_refl eq_refl eq_refl).
  - rewrite (proj1 (proj2 (T (with_stdout (Some "2.3.0") up_to_date) _ eq_refl))
               _ "2.3.0" eq_refl eq_refl eq_refl).
    vm_compute. reflexivity.
  - rewrite (proj1 (proj2 (proj2 (proj2
               (T (with_stdout (Some "Faster Melee 2.3.1") up_to_date) _ eq_refl))))
               _ eq_refl
               (or_intror (ex_intro _ "Faster Melee 2.3.1" (conj eq_refl eq_refl)))).
    vm_compute. reflexivity.
  - rewrite (proj1 (proj2 (proj2 (T (with_executable None up_to_date) _ eq_refl)))
               eq_refl).
    vm_compute. reflexivity.
Defined.

End InstallationFacts.

(** ** More facts about the manager *)

Section ManagerMore.
Context `{Host}.

Lemma writeFile_outcome p d w :
  (run (fs_writeFile p d) w).2 = Ok tt \/
  (run (fs_writeFile p d) w).2 = Err ERR_INVALID_ARG_TYPE.
Proof. destruct d; cbn; [by left|]. destruct writeFile_coerces; cbn; auto. Qed.

Lemma launch_playback_quiet w idx rc dt inst :
  i_playback (dolphinInstances w) = Some inst ->
  commFilePath inst = None \/ (exists p, commFilePath inst = Some p /\ truthy p = false) ->
  run (launchDolphin playback idx rc dt) w = (w, Ok tt).
Proof.
  intros E Q. unfold launchDolphin, launch_playback. cbn. rewrite E. cbn. rewrite E.
  destruct Q as [->|(p & -> & ->)]; reflexivity.
Qed.

(** X1. A call that rejects, for any reason other than the refusal of the
    comm file write, has created nothing: the registry, the processes, the
    listeners and the disk are as before, and no file-system call was made. *)
Theorem rejected_launch_creates_nothing u idx rc dt w e :
  (run (launchDolphin u idx rc dt) w).2 = Err e ->
  e <> ERR_INVALID_ARG_TYPE ->
  let w' := (run (launchDolphin u idx rc dt) w).1 in
  dolphinInstances w' = dolphinInstances w /\ processes w' = processes w /\
  closeListeners w' = closeListeners w /\ files w' = files w /\
  fsCalls w' = fsCalls w.
Proof.
  intros R Ne w'. subst w'. revert R.
  assert (W : forall p w0, (run (await (fs_writeFile p (stringify rc))) w0).2 = Err e -> False).
  { intros p w0. rewrite run_await.
    destruct (writeFile_outcome p (stringify rc) w0) as [-> | ->]; congruence. }
  destruct u.
  - destruct (i_playback (dolphinInstances w)) as [inst|] eqn:E.
    + destruct (commFilePath inst) as [p|] eqn:Ep.
      * destruct (truthy p) eqn:Et.
        -- rewrite (launch_playback_live w idx rc dt inst p) by done.
           intros R. destruct (W _ _ R).
        -- rewrite (launch_playback_quiet w idx rc dt inst) by eauto. done.
      * rewrite (launch_playback_quiet w idx rc dt inst) by eauto. done.
    + destruct (executables w PLAYBACK) as [exe|] eqn:X.
      * rewrite (launch_playback_new w idx rc dt exe) by done.
        intros R. destruct (W _ _ R).
      * rewrite launch_playback_missing by done. done.
  - destruct (lt_zero idx) eqn:Hn.
    { rewrite launch_spectate_negative by done. done. }
    destruct (live_spectate idx w) as [inst|] eqn:L.
    + rewrite (launch_spectate_live w idx rc dt inst) by done.
      destruct (commFilePath inst) as [p|]; [|done].
      destruct (truthy p); [|done]. intros R. destruct (W _ _ R).
    + destruct (executables w PLAYBACK) as [exe|] eqn:X.
      * rewrite (launch_spectate_new w idx rc dt exe) by done.
        intros R. destruct (W _ _ R).
      * rewrite launch_spectate_missing by done. done.
  - destruct dt as [t|]; [|done].
    destruct (executables w t) as [exe|] eqn:X.
    + rewrite (launch_config_new w idx rc t exe) by done. done.
    + rewrite launch_config_missing by done. done.
  - destruct (i_netplay (dolphinInstances w)) as [inst|] eqn:E.
    + rewrite (launch_netplay_live w idx rc dt inst) by done. done.
    + destruct (executables w NETPLAY) as [exe|] eqn:X.
      * rewrite (launch_netplay_new w idx rc dt exe) by done. done.
      * rewrite launch_netplay_missing by done. done.
Qed.

(** X2. Whatever the call and the world, a call spawns at most one process.
    The process it spawns is the executable found for the build the use type
    asks for, started with the arguments of that use type (the comm file flag
    first, then the boot flags when an ISO is configured; boot flags only for
    netplay; none for config), and exactly one "close" listener is registered
    on its handle. *)
Theorem launch_spawns_at_most_one u idx rc dt w :
  let w' := (run (launchDolphin u idx rc dt) w).1 in
  (processes w' = processes w /\ closeListeners w' = closeListeners w) \/
  exists t exe h,
    needed_build u dt = Some t /\ executables w t = Some exe /\
    processes w' = processes w ++ [ {| exe := exe; params := spawn_params u w |} ] /\
    closeListeners w' = closeListeners w ++ [ (fresh_pid w, h) ].
Proof.
  intros w'. subst w'. destruct u.
  - destruct (i_playback (dolphinInstances w)) as [inst|] eqn:E.
    + left. destruct (launch_playback_keeps w idx rc dt inst E) as (_ & Hp & Hl). done.
    + destruct (executables w PLAYBACK) as [exe|] eqn:X.
      * right. exists PLAYBACK, exe, (OnClosePlayback (fresh_path playback w)).
        rewrite (launch_playback_new w idx rc dt exe), run_await by done.
        destruct (writeFile_frame (fresh_path playback w) (stringify rc)
                    (playback_created exe w)) as (_ & Hp & Hl & _).
        cbv zeta in Hp, Hl. rewrite Hp, Hl. done.
      * left. rewrite launch_playback_missing by done. done.
  - destruct (lt_zero idx) eqn:Hn.
    { left. rewrite launch_spectate_negative by done. done. }
    destruct (live_spectate idx w) as [inst|] eqn:L.
    + left. rewrite (launch_spectate_live w idx rc dt inst) by done.
      destruct (commFilePath inst) as [p|]; [|done].
      destruct (truthy p); [|done]. rewrite run_await.
      destruct (writeFile_frame p (stringify rc) w) as (_ & Hp & Hl & _). done.
    + destruct (executables w PLAYBACK) as [exe|] eqn:X.
      * right. exists PLAYBACK, exe, (OnCloseSpectate (fresh_path spectate w) idx).
        rewrite (launch_spectate_new w idx rc dt exe), run_await by done.
        destruct (writeFile_frame (fresh_path spectate w) (stringify rc)
                    (spectate_created idx exe w)) as (_ & Hp & Hl & _).
        cbv zeta in Hp, Hl. rewrite Hp, Hl. done.
      * left. rewrite launch_spectate_missing by done. done.
  - destruct dt as [t|]; [|by left].
    destruct (executables w t) as [exe|] eqn:X.
    + right. exists t, exe, (OnCloseConfig (configureType_of t)).
      rewrite (launch_config_new w idx rc t exe) by done. done.
    + left. rewrite launch_config_missing by done. done.
  - destruct (i_netplay (dolphinInstances w)) as [inst|] eqn:E.
    + left. rewrite (launch_netplay_live w idx rc dt inst) by done. done.
    + destruct (executables w NETPLAY) as [exe|] eqn:X.
      * right. exists NETPLAY, exe, OnCloseNetplay.
        rewrite (launch_netplay_new w idx rc dt exe) by done. done.
      * left. rewrite launch_netplay_missing by done. done.
Qed.

(** X3. Netplay launches are idempotent: with no exit in between, a second
    netplay call, whatever its arguments, leaves the world exactly as the first
    call left it. *)
Theorem netplay_launch_idempotent w idx rc dt idx' rc' dt' :
  run_all [launchDolphin netplay idx rc dt; launchDolphin netplay idx' rc' dt'] w =
  run_all [launchDolphin netplay idx rc dt] w.
Proof.
  rewrite !run_all_cons. cbn [run_all fold_left].
  destruct (i_netplay (dolphinInstances w)) as [inst|] eqn:E.
  - rewrite (launch_netplay_live w idx rc dt inst) by done. cbn [fst].
    by rewrite (launch_netplay_live w idx' rc' dt' inst).
  - destruct (executables w NETPLAY) as [exe|] eqn:X.
    + rewrite (launch_netplay_new w idx rc dt exe) by done. cbn [fst].
      rewrite (launch_netplay_live (netplay_created exe w) idx' rc' dt'
                 (plain_instance netplay w)); reflexivity.
    + rewrite (launch_netplay_missing w idx rc dt) by done. cbn [fst].
      by rewrite (launch_netplay_missing w idx' rc' dt').
Qed.

(** *** Comm file names *)

Lemma append_cancel_l (s a b : string) : s +:+ a = s +:+ b -> a = b.
Proof. induction s as [|c s IH]; simpl; [done|]. intros [= E]. auto. Qed.

Lemma append_length (a b : string) :
  String.length (a +:+ b) = (String.length a + String.length b)%nat.
Proof. induction a as [|c a IH]; simpl; [done|]. by rewrite IH. Qed.

Lemma append_cancel_r (t a b : string) : a +:+ t = b +:+ t -> a = b.
Proof.
  revert b. induction a as [|c a IH]; intros [|d b] E.
  - done.
  - apply (f_equal String.length) in E. rewrite !append_length in E. simpl in E. lia.
  - apply (f_equal String.length) in E. rewrite !append_length in E. simpl in E. lia.
  - simpl in E. injection E as -> E. f_equal. auto.
Qed.

Lemma fresh_path_inj u u' w w' :
  fresh_path u w = fresh_path u' w' -> randomHex (draws w) = randomHex (draws w').
Proof.
  unfold fresh_path, path_join. intros E.
  do 3 apply append_cancel_l in E.
  destruct u, u'; simpl in E; try discriminate E;
    do 2 apply append_cancel_l in E; by apply append_cancel_r in E.
Qed.

(** X4. When the random names drawn are pairwise different, two calls of
    generateCommunicationFilePath made at different times never return the
    same path, whatever the use types; and each call is one more draw. *)
Theorem comm_file_paths_never_collide u u' w w' :
  (forall m n, randomHex m = randomHex n -> m = n) ->
  draws w <> draws w' ->
  (run (generateCommunicationFilePath u) w).2 <>
    (run (generateCommunicationFilePath u') w').2 /\
  draws (run (generateCommunicationFilePath u) w).1 = S (draws w).
Proof.
  intros Inj Hd. split; [|reflexivity].
  change ((Ok (fresh_path u w) : Result string) <> Ok (fresh_path u' w')).
  intros [= E]. apply fresh_path_inj in E. auto.
Qed.

(** *** Payloads sent to a running playback instance *)

Lemma stringify_some r : stringify (Some r) = Some (JSON_stringify r).
Proof. reflexivity. Qed.

Lemma payloads_to_live_instance rs w inst p :
  i_playback (dolphinInstances w) = Some inst ->
  commFilePath inst = Some p -> truthy p = true ->
  dolphinInstances (run_all (map payload_call rs) w) = dolphinInstances w /\
  processes (run_all (map payload_call rs) w) = processes w /\
  files (run_all (map payload_call rs) w) =
    match last rs with
    | Some a => <[p := JSON_stringify a.1.2]> (files w)
    | None => files w
    end.
Proof.
  revert w. induction rs as [|a rs IH]; intros w E Ep Et; [done|].
  rewrite map_cons, run_all_cons. unfold payload_call at 2 4 6.
  rewrite (launch_playback_live w a.1.1 (Some a.1.2) a.2 inst p), run_await by done.
  rewrite stringify_some, run_writeFile_data. cbn [fst].
  destruct (IH (set_files (insert p (JSON_stringify a.1.2))
                  (set_fsCalls (fun l => l ++ [FsWriteFile p (Some (JSON_stringify a.1.2))]) w)))
    as (Hi & Hp & Hf); [done..|].
  rewrite Hi, Hp, Hf. split; [done|]. split; [done|].
  destruct rs as [|b rs]; [done|]. rewrite last_cons_cons.
  destruct (last (b :: rs)) eqn:L; [|by apply last_None in L].
  cbn. apply insert_insert_eq.
Qed.

(** X5. The last payload wins.  Starting from an empty playback slot with the
    playback build installed, any number of playback calls that each pass a
    payload spawn one process in all, and leave in its comm file the
    serialization of the payload of the last call, the rest of the disk being
    as before. *)
Theorem last_payload_wins w a rs exe :
  i_playback (dolphinInstances w) = None ->
  executables w PLAYBACK = Some exe ->
  let w' := run_all (map payload_call (a :: rs)) w in
  files w' =
    <[fresh_path playback w := JSON_stringify (default a (last rs)).1.2]> (files w) /\
  processes w' =
    processes w ++
      [ {| exe := exe; params := ["-i"; fresh_path playback w] ++ iso_params (isoPath w) |} ] /\
  i_playback (dolphinInstances w') = Some (playback_instance w).
Proof.
  intros E X w'. subst w'. rewrite map_cons, run_all_cons. unfold payload_call at 2 4 6.
  rewrite (launch_playback_new w a.1.1 (Some a.1.2) a.2 exe), run_await by done.
  rewrite stringify_some, run_writeFile_data. cbn [fst].
  destruct (payloads_to_live_instance rs
              (set_files (insert (fresh_path playback w) (JSON_stringify a.1.2))
                 (set_fsCalls (fun l => l ++ [FsWriteFile (fresh_path playback w)
                                                (Some (JSON_stringify a.1.2))])
                    (playback_created exe w)))
              (playback_instance w) (fresh_path playback w))
    as (Hi & Hp & Hf); [done|done|apply truthy_fresh_path|].
  rewrite Hi, Hp, Hf. split; [|done].
  destruct (last rs); [|done]. cbn. apply insert_insert_eq.
Qed.

(** *** Spectating several broadcasts *)

Lemma writeFile_env p d w :
  executables (run (fs_writeFile p d) w).1 = executables w /\
  isoPath (run (fs_writeFile p d) w).1 = isoPath w.
Proof. destruct d; cbn; [done|]. destruct writeFile_coerces; done. Qed.

Lemma index_is_refl a : index_is (index a) a = true.
Proof. unfold index_is. destruct (index a); [apply Z.eqb_refl|done]. Qed.

Lemma index_is_other idx a : index a <> idx -> index_is idx a = false.
Proof.
  intros Hne. destruct (index_is idx a) eqn:E; [|done].
  by apply index_is_eq in E.
Qed.

Lemma find_app_none {A} (f : A -> bool) l l' :
  find f l = None -> find f (l ++ l') = find f l'.
Proof.
  induction l as [|x l IH]; [done|]. cbn. destruct (f x); [done|]. auto.
Qed.

Lemma find_none_remove (f : DolphinInstance -> bool) l :
  find f l = None -> lodash_remove l f = l.
Proof.
  unfold lodash_remove. induction l as [|x l IH]; [done|]. cbn.
  destruct (f x); [done|]. cbn. intros F. by rewrite IH.
Qed.

Lemma find_default idx r :
  lodash_find (i_spectate r) idx = None ->
  find (index_is idx) (default [] (i_spectate r)) = None.
Proof. unfold lodash_find. by destruct (i_spectate r). Qed.

Lemma live_spectate_none idx w :
  lodash_find (i_spectate (dolphinInstances w)) idx = None -> live_spectate idx w = None.
Proof. unfold live_spectate. by intros ->. Qed.

(** The state a spectate call leaves when it creates an instance. *)
Lemma launch_spectate_appends w idx rc dt exe :
  lt_zero idx = false ->
  lodash_find (i_spectate (dolphinInstances w)) idx = None ->
  executables w PLAYBACK = Some exe ->
  let w' := (run (launchDolphin spectate idx rc dt) w).1 in
  i_spectate (dolphinInstances w') =
    Some (default [] (i_spectate (dolphinInstances w)) ++ [spectate_instance idx w]) /\
  processes w' =
    processes w ++
      [ {| exe := exe; params := ["-i"; fresh_path spectate w] ++ iso_params (isoPath w) |} ] /\
  closeListeners w' =
    closeListeners w ++ [ (fresh_pid w, OnCloseSpectate (fresh_path spectate w) idx) ] /\
  draws w' = S (draws w) /\ executables w' = executables w /\
  i_playback (dolphinInstances w') = i_playback (dolphinInstances w) /\
  i_netplay (dolphinInstances w') = i_netplay (dolphinInstances w) /\
  i_configNetplay (dolphinInstances w') = i_configNetplay (dolphinInstances w) /\
  i_configPlayback (dolphinInstances w') = i_configPlayback (dolphinInstances w).
Proof.
  intros Hn F X w'. subst w'.
  rewrite (launch_spectate_new w idx rc dt exe), run_await
    by auto using live_spectate_none.
  destruct (writeFile_frame (fresh_path spectate w) (stringify rc)
              (spectate_created idx exe w)) as (Hi & Hp & Hl & Hd).
  destruct (writeFile_env (fresh_path spectate w) (stringify rc)
              (spectate_created idx exe w)) as (Hx & _).
  cbv zeta in Hi, Hp, Hl, Hd. rewrite Hi, Hp, Hl, Hd, Hx.
  unfold spectate_created, push_spectate. cbn.
  destruct (i_spectate (dolphinInstances w)); done.
Qed.

(** X6. Spectate instances are independent.  From a collection that holds no
    entry for either of two different indices (neither negative), with the
    playback build installed and random names pairwise different, launching
    the first index and then the second appends two instances, in that order,
    with different processes and different comm files; afterwards a call
    with either index finds its own instance. *)
Theorem spectate_instances_are_independent w i j rc rc' dt dt' exe :
  (forall m n, randomHex m = randomHex n -> m = n) ->
  i <> j -> lt_zero i = false -> lt_zero j = false ->
  lodash_find (i_spectate (dolphinInstances w)) i = None ->
  lodash_find (i_spectate (dolphinInstances w)) j = None ->
  executables w PLAYBACK = Some exe ->
  let w1 := (run (launchDolphin spectate i rc dt) w).1 in
  let w2 := (run (launchDolphin spectate j rc' dt') w1).1 in
  exists a b,
    i_spectate (dolphinInstances w2) =
      Some (default [] (i_spectate (dolphinInstances w)) ++ [a; b]) /\
    index a = i /\ index b = j /\
    dolphin a = Some (fresh_pid w) /\ dolphin b = Some (S (fresh_pid w)) /\
    length (processes w2) = S (S (length (processes w))) /\
    commFilePath a <> commFilePath b /\
    live_spectate i w2 = Some a /\ live_spectate j w2 = Some b.
Proof.
  intros Inj Hij Hi Hj Fi Fj X w1 w2.
  destruct (launch_spectate_appends w i rc dt exe Hi Fi X)
    as (S1 & P1 & _ & D1 & X1 & _).
  fold w1 in S1, P1, D1, X1.
  assert (Fj1 : lodash_find (i_spectate (dolphinInstances w1)) j = None).
  { rewrite S1. cbn. rewrite find_app_none by by apply find_default.
    cbn. rewrite index_is_other; [done|]. cbn. congruence. }
  destruct (launch_spectate_appends w1 j rc' dt' exe Hj Fj1) as (S2 & P2 & _).
  { by rewrite X1. }
  fold w2 in S2, P2.
  exists (spectate_instance i w), (spectate_instance j w1).
  assert (Hpid : fresh_pid w1 = S (fresh_pid w)).
  { unfold fresh_pid. rewrite P1, length_app. cbn. lia. }
  assert (S2' : i_spectate (dolphinInstances w2) =
            Some (default [] (i_spectate (dolphinInstances w)) ++
                    [spectate_instance i w; spectate_instance j w1])).
  { rewrite S2, S1. cbn. by rewrite <- app_assoc. }
  clear S2. clearbody w1 w2.
  split; [done|]. split; [done|]. split; [done|]. split; [done|].
  split. { cbn. by rewrite Hpid. }
  split. { rewrite P2, P1, !length_app. cbn. lia. }
  split.
  { cbn. intros [= E]. apply fresh_path_inj, Inj in E. rewrite D1 in E. lia. }
  unfold live_spectate, lodash_find. rewrite S2'. split.
  - rewrite find_app_none by by apply find_default.
    cbn [find]. rewrite (index_is_refl (spectate_instance i w)). done.
  - rewrite find_app_none by by apply find_default.
    cbn [find]. rewrite index_is_other by (cbn; congruence).
    rewrite (index_is_refl (spectate_instance j w1)). done.
Qed.

(** *** A launch followed by the exit of its process *)

Lemma with_playback_back r v :
  i_playback r = None -> with_playback None (with_playback v r) = r.
Proof. destruct r. cbn. by intros ->. Qed.

(** X7. Launching playback with a payload on an empty slot and then letting
    the spawned process exit brings the registry and the disk back to what
    they were (the comm file path being free before): the slot is empty again
    and the comm file is gone. *)
Theorem playback_launch_then_exit_restores w idx r dt exe :
  wired w ->
  i_playback (dolphinInstances w) = None ->
  executables w PLAYBACK = Some exe ->
  files w !! fresh_path playback w = None ->
  let w1 := (run (launchDolphin playback idx (Some r) dt) w).1 in
  let w2 := emit_close (fresh_pid w) w1 in
  i_playback (dolphinInstances w1) = Some (playback_instance w) /\
  files w1 !! fresh_path playback w = Some (JSON_stringify r) /\
  dolphinInstances w2 = dolphinInstances w /\ files w2 = files w.
Proof.
  intros W E X F w1 w2.
  assert (W1 : wired w1) by by apply wired_launch.
  assert (E1 : w1 = set_files (insert (fresh_path playback w) (JSON_stringify r))
                 (set_fsCalls (fun l => l ++ [FsWriteFile (fresh_path playback w)
                                                (Some (JSON_stringify r))])
                    (playback_created exe w))).
  { subst w1. rewrite (launch_playback_new w idx (Some r) dt exe), run_await by done.
    by rewrite stringify_some, run_writeFile_data. }
  assert (L : listeners_of (fresh_pid w) w1 = [OnClosePlayback (fresh_path playback w)]).
  { apply listeners_of_unique; [apply W1|]. rewrite E1. cbn.
    apply in_or_app. right. by left. }
  subst w2. rewrite (emit_close_single _ _ _ L). clear L W1. clearbody w1. subst w1.
  rewrite (close_playback_present _ (JSON_stringify r)) by (cbn; apply lookup_insert_eq).
  cbn. split; [done|]. split; [apply lookup_insert_eq|].
  split; [by apply with_playback_back|by apply delete_insert_id].
Qed.

Lemma remove_snoc l a idx :
  find (index_is idx) l = None -> index a = idx ->
  lodash_remove (l ++ [a]) (index_is idx) = l.
Proof.
  intros F I. unfold lodash_remove. rewrite List.filter_app. cbn.
  rewrite <- I, index_is_refl. cbn. rewrite app_nil_r.
  rewrite I. by apply find_none_remove.
Qed.

Lemma remove_pushed r a idx :
  find (index_is idx) (default [] (i_spectate r)) = None -> index a = idx ->
  match i_spectate (push_spectate a r) with
  | Some l => with_spectate (Some (lodash_remove l (index_is idx))) (push_spectate a r)
  | None => push_spectate a r
  end = with_spectate (Some (default [] (i_spectate r))) r.
Proof.
  intros F I. unfold push_spectate.
  destruct (i_spectate r) as [l|]; cbn in F; cbn [i_spectate with_spectate].
  - by rewrite remove_snoc.
  - change [a] with ([] ++ [a]). by rewrite remove_snoc.
Qed.

(** X8. The same for a spectate instance whose index has no entry yet: after
    the launch and the exit of its process the collection holds the entries
    it held before, in the same order (an array that did not exist is now
    the empty array), the other slots are untouched and the disk is as
    before. *)
Theorem spectate_launch_then_exit_restores w idx r dt exe :
  wired w ->
  lt_zero idx = false ->
  lodash_find (i_spectate (dolphinInstances w)) idx = None ->
  executables w PLAYBACK = Some exe ->
  files w !! fresh_path spectate w = None ->
  let w1 := (run (launchDolphin spectate idx (Some r) dt) w).1 in
  let w2 := emit_close (fresh_pid w) w1 in
  i_spectate (dolphinInstances w2) = Some (default [] (i_spectate (dolphinInstances w))) /\
  i_playback (dolphinInstances w2) = i_playback (dolphinInstances w) /\
  i_netplay (dolphinInstances w2) = i_netplay (dolphinInstances w) /\
  i_configNetplay (dolphinInstances w2) = i_configNetplay (dolphinInstances w) /\
  i_configPlayback (dolphinInstances w2) = i_configPlayback (dolphinInstances w) /\
  files w2 = files w.
Proof.
  intros W Hn Fd X F w1 w2.
  assert (W1 : wired w1) by by apply wired_launch.
  assert (E1 : w1 = set_files (insert (fresh_path spectate w) (JSON_stringify r))
                 (set_fsCalls (fun l => l ++ [FsWriteFile (fresh_path spectate w)
                                                (Some (JSON_stringify r))])
                    (spectate_created idx exe w))).
  { subst w1. rewrite (launch_spectate_new w idx (Some r) dt exe), run_await
      by auto using live_spectate_none.
    by rewrite stringify_some, run_writeFile_data. }
  assert (L : listeners_of (fresh_pid w) w1 =
              [OnCloseSpectate (fresh_path spectate w) idx]).
  { apply listeners_of_unique; [apply W1|]. rewrite E1. cbn.
    apply in_or_app. right. by left. }
  subst w2. rewrite (emit_close_single _ _ _ L). clear L W1. clearbody w1. subst w1.
  rewrite (close_spectate_present _ idx (JSON_stringify r))
    by (cbn; apply lookup_insert_eq).
  apply find_default in Fd.
  unfold spectate_created. cbn -[push_spectate lodash_remove index_is].
  rewrite (remove_pushed _ (spectate_instance idx w) idx) by done.
  do 5 (split; [done|]). by apply delete_insert_id.
Qed.

(** X9. A "close" listener of a config process empties the slot without
    looking at what the slot holds: after two config calls for the same build
    the slot holds the instance of the second process, and the exit of the
    first process empties it. *)
Theorem exit_of_older_config_process_empties_slot w idx rc idx' rc' t exe :
  wired w ->
  executables w t = Some exe ->
  let w1 := (run (launchDolphin config idx rc (Some t)) w).1 in
  let w2 := (run (launchDolphin config idx' rc' (Some t)) w1).1 in
  config_slot (configureType_of t) (dolphinInstances w2) =
    Some {| dolphinUseType := config; index := None;
            dolphin := Some (S (fresh_pid w)); commFilePath := None |} /\
  config_slot (configureType_of t) (dolphinInstances (emit_close (fresh_pid w) w2)) = None.
Proof.
  intros W X w1 w2.
  assert (W2 : wired w2) by (apply wired_launch; by apply wired_launch).
  assert (E2 : w2 = config_created t exe (config_created t exe w)).
  { subst w2 w1. rewrite (launch_config_new w idx rc t exe) by done. cbn [fst].
    by rewrite (launch_config_new _ idx' rc' t exe). }
  assert (L : listeners_of (fresh_pid w) w2 = [OnCloseConfig (configureType_of t)]).
  { apply listeners_of_unique; [apply W2|]. rewrite E2. cbn.
    apply in_or_app. left. apply in_or_app. right. by left. }
  rewrite (emit_close_single _ _ _ L). clear L W2. clearbody w2 w1. subst w2.
  unfold config_created, spawned, plain_instance, fresh_pid.
  destruct t; cbn; rewrite length_app; cbn; split; try done; do 3 f_equal; lia.
Qed.

(** *** The wiring of instances and listeners *)

Lemma wired_history steps w : wired w -> wired (history steps w).
Proof.
  revert w. induction steps as [|s steps IH]; intros w W; [done|].
  cbn. apply IH. destruct s; cbn; [by apply wired_launch|by apply wired_emit_close].
Qed.

(** X10. On a manager that starts with an empty registry and no listener, any
    sequence of awaited launches and process exits keeps instances and
    listeners wired: every listener sits on a spawned process, no process has
    two listeners, and every playback or spectate instance in the registry has
    a process and a comm file, with the listener that captured that comm file
    (and index) registered on that process. *)
Theorem wiring_is_invariant steps w :
  dolphinInstances w = no_instances -> closeListeners w = [] ->
  let w' := history steps w in
  Forall (fun l => (l.1 < length (processes w'))%nat) (closeListeners w') /\
  NoDup (map fst (closeListeners w')) /\
  (forall inst, i_playback (dolphinInstances w') = Some inst ->
     exists pid p, dolphin inst = Some pid /\ commFilePath inst = Some p /\
       listeners_of pid w' = [OnClosePlayback p]) /\
  (forall l inst, i_spectate (dolphinInstances w') = Some l -> In inst l ->
     exists pid p, dolphin inst = Some pid /\ commFilePath inst = Some p /\
       listeners_of pid w' = [OnCloseSpectate p (index inst)]).
Proof.
  intros Hi Hl w'.
  assert (W : wired w') by (apply wired_history; by apply wired_initial).
  clearbody w'. destruct W as [W1 W2 W3 W4].
  split; [done|]. split; [done|]. split.
  - intros inst E. destruct (W3 inst E) as (pid & p & D & C & Hin).
    exists pid, p. auto using listeners_of_unique.
  - intros l inst E Hin. destruct (W4 l inst E Hin) as (pid & p & D & C & Hin').
    exists pid, p. auto using listeners_of_unique.
Qed.

End ManagerMore.

Lemma node14_names_differ m n :
  randomHex (Host := node14_host) m = randomHex (Host := node14_host) n -> m = n.
Proof. cbn. intros E. apply append_cancel_l in E. by apply (inj pretty). Qed.

(** Checks of the facts above on a freshly started manager. *)

Lemma rejected_launch_witness :
  let w' := (run (launchDolphin (H := node14_host) spectate (Some (-1))
                    (Some sample_payload) None) fresh_world).1 in
  dolphinInstances w' = dolphinInstances fresh_world /\
  processes w' = processes fresh_world /\
  closeListeners w' = closeListeners fresh_world /\ files w' = files fresh_world /\
  fsCalls w' = fsCalls fresh_world.
Proof.
  apply (rejected_launch_creates_nothing (H := node14_host) spectate (Some (-1))
           (Some sample_payload) None fresh_world (Error "Must have a valid index")).
  - vm_compute. reflexivity.
  - discriminate.
Defined.

Lemma comm_file_paths_witness :
  let w1 := (run (generateCommunicationFilePath (H := node14_host) playback) fresh_world).1 in
  (run (generateCommunicationFilePath (H := node14_host) playback) fresh_world).2 <>
    (run (generateCommunicationFilePath (H := node14_host) playback) w1).2 /\
  draws (run (generateCommunicationFilePath (H := node14_host) playback) fresh_world).1 =
    S (draws fresh_world).
Proof.
  cbv zeta.
  apply (comm_file_paths_never_collide (H := node14_host) playback playback fresh_world
           (run (generateCommunicationFilePath (H := node14_host) playback) fresh_world).1
           node14_names_differ).
  vm_compute. discriminate.
Defined.

Lemma last_payload_witness :
  let a := (Some 0, sample_payload, None) in
  let b := (Some 1, sample_payload, Some NETPLAY) in
  let w' := run_all (map (payload_call (H := node14_host)) [a; b; a]) fresh_world in
  files w' =
    <[fresh_path (H := node14_host) playback fresh_world :=
        sample_stringify sample_payload]> (files fresh_world) /\
  length (processes w') = 1%nat.
Proof.
  cbv zeta.
  destruct (last_payload_wins (H := node14_host) fresh_world
              (Some 0, sample_payload, None)
              [(Some 1, sample_payload, Some NETPLAY); (Some 0, sample_payload, None)]
              "/opt/playback/dolphin" eq_refl eq_refl) as (Hf & Hp & _).
  cbv zeta in Hf, Hp. split; [exact Hf|].
  rewrite Hp. reflexivity.
Defined.

Lemma spectate_independent_witness :
  let w1 := (run (launchDolphin (H := node14_host) spectate (Some 0)
                    (Some sample_payload) None) fresh_world).1 in
  let w2 := (run (launchDolphin (H := node14_host) spectate (Some 1) None None) w1).1 in
  exists a b,
    i_spectate (dolphinInstances w2) = Some [a; b] /\
    index a = Some 0 /\ index b = Some 1 /\
    commFilePath a <> commFilePath b /\
    live_spectate (Some 0) w2 = Some a /\ live_spectate (Some 1) w2 = Some b.
Proof.
  cbv zeta.
  destruct (spectate_instances_are_independent (H := node14_host) fresh_world
              (Some 0) (Some 1) (Some sample_payload) None None None
              "/opt/playback/dolphin" node14_names_differ)
    as (a & b & Hs & Ha & Hb & _ & _ & _ & Hc & La & Lb);
    [discriminate|reflexivity..|].
  exists a, b. cbv zeta in Hs, La, Lb.
  split; [exact Hs|]. split; [exact Ha|]. split; [exact Hb|].
  split; [exact Hc|]. split; [exact La|exact Lb].
Defined.

Lemma playback_round_trip_witness :
  let w1 := (run (launchDolphin (H := node14_host) playback (Some 0)
                    (Some sample_payload) None) fresh_world).1 in
  let w2 := emit_close 0%nat w1 in
  dolphinInstances w2 = dolphinInstances fresh_world /\ files w2 = files fresh_world.
Proof.
  cbv zeta.
  apply (playback_launch_then_exit_restores (H := node14_host) fresh_world (Some 0)
           sample_payload None "/opt/playback/dolphin").
  - apply wired_initial; reflexivity.
  - reflexivity.
  - reflexivity.
  - vm_compute. reflexivity.
Defined.

Lemma spectate_round_trip_witness :
  let w1 := (run (launchDolphin (H := node14_host) spectate (Some 2)
                    (Some sample_payload) None) fresh_world).1 in
  let w2 := emit_close 0%nat w1 in
  i_spectate (dolphinInstances w2) = Some [] /\ files w2 = files fresh_world.
Proof.
  cbv zeta.
  destruct (spectate_launch_then_exit_restores (H := node14_host) fresh_world (Some 2)
              sample_payload None "/opt/playback/dolphin")
    as (Hs & _ & _ & _ & _ & Hf).
  - apply wired_initial; reflexivity.
  - reflexivity.
  - reflexivity.
  - reflexivity.
  - vm_compute. reflexivity.
  - cbv zeta in Hs, Hf. split; [exact Hs|exact Hf].
Defined.

Lemma older_config_exit_witness :
  let w1 := (run (launchDolphin (H := node14_host) config None None (Some NETPLAY))
               fresh_world).1 in
  let w2 := (run (launchDolphin (H := node14_host) config None None (Some NETPLAY)) w1).1 in
  i_configNetplay (dolphinInstances w2) =
    Some {| dolphinUseType := config; index := None; dolphin := Some 1%nat;
            commFilePath := None |} /\
  i_configNetplay (dolphinInstances (emit_close 0%nat w2)) = None.
Proof.
  cbv zeta.
  apply (exit_of_older_config_process_empties_slot (H := node14_host) fresh_world
           None None None None NETPLAY "/opt/netplay/dolphin").
  - apply wired_initial; reflexivity.
  - reflexivity.
Defined.

Lemma wiring_witness :
  let w' := history (H := node14_host)
              [DoLaunch playback (Some 0) (Some sample_payload) None;
               DoLaunch spectate (Some 0) None None;
               DoExit 0%nat;
               DoLaunch config None None (Some PLAYBACK)] fresh_world in
  NoDup (map fst (closeListeners w')).
Proof.
  cbv zeta.
  apply (wiring_is_invariant (H := node14_host)
           [DoLaunch playback (Some 0) (Some sample_payload) None;
            DoLaunch spectate (Some 0) None None;
            DoExit 0%nat;
            DoLaunch config None None (Some PLAYBACK)] fresh_world);
    reflexivity.
Defined.

(** ** More facts about the installation *)

Module InstallationMore.
Import Installation InstallationEffects.

Section Class.
Variable semver_lt : string -> string -> option bool.
Variable type_name : DolphinLaunchType -> string.
Variable dolphinLaunchType : DolphinLaunchType.
Variable installationFolder : string.

Ltac run_install :=
  unfold downloadAndInstall, _installDolphin, _uninstallDolphin, run_installer,
    userFolder, fetchLatestVersion, of_option, log, effect, get, throw,
    mbind, M_bind, mret, M_ret, bind, ret.

Lemma removals_add_log ms w : removals (add_log ms w) = removals w.
Proof. reflexivity. Qed.

Lemma removals_add_other e w :
  is_remove e = false -> removals (add_effect e w) = removals w.
Proof.
  intros E. unfold removals. cbn. rewrite List.filter_app. cbn. rewrite E.
  apply app_nil_r.
Qed.

(** X11. Without a download URL for the running platform (no entry in
    [downloadUrls], or an empty one) [downloadAndInstall] fails with the error
    that names the platform, and has done nothing: nothing downloaded, removed
    or installed, nothing logged, whether or not a clean install was asked
    for. *)
Theorem download_without_url_does_nothing w info cleanInstall :
  (forall url, downloadUrls info !! platform w = Some url -> url = "") ->
  downloadAndInstall type_name dolphinLaunchType installationFolder
    (Some info) cleanInstall w =
  (w, Failed (Error ("Could not find latest Dolphin download url for " +:+ platform w))).
Proof.
  intros U. run_install.
  destruct (downloadUrls info !! platform w) as [url|] eqn:E; [|done].
  rewrite (U url eq_refl). reflexivity.
Qed.






(** X15. Without a clean install nothing is ever removed: whatever the
    machine and the outcome, [downloadAndInstall] called with [cleanInstall]
    absent or false leaves the list of removed folders as it was; and so does
    [validate], which never asks for a clean install. *)
Theorem nothing_removed_without_clean_install w releaseInfo cleanInstall :
  default false cleanInstall = false ->
  removals (downloadAndInstall type_name dolphinLaunchType installationFolder
              releaseInfo cleanInstall w).1 = removals w /\
  removals (validate semver_lt type_name dolphinLaunchType installationFolder w).1 =
    removals w.
Proof.
  intros C.
  assert (D : forall ri ci w0, default false ci = false ->
    removals (downloadAndInstall type_name dolphinLaunchType installationFolder
                ri ci w0).1 = removals w0).
  { clear. intros ri ci w0 C. run_install. rewrite C.
    assert (F : forall (l : list Effect) e, is_remove e = false ->
              List.filter is_remove (l ++ [e]) = List.filter is_remove l).
    { intros l e E. rewrite List.filter_app. cbn. rewrite E. apply app_nil_r. }
    destruct ri as [info|]; [|destruct (latest w0 dolphinLaunchType) as [info|]];
      cbn; try done;
      (destruct (downloadUrls info !! platform w0) as [url|]; [|done]);
      (destruct (truthy url); [|done]); cbn;
      (destruct (asset w0) as [a|]; cbn; [|unfold removals; cbn; by rewrite F]);
      (destruct (String.eqb (platform w0) "win32" || String.eqb (platform w0) "darwin"
                 || String.eqb (platform w0) "linux"); cbn;
         [destruct (installer_ok w0); cbn|]);
      unfold removals; cbn; rewrite ?F by done; done. }
  split; [by apply D|].
  destruct (latest w dolphinLaunchType) as [info|] eqn:L;
    [|by rewrite InstallationFacts.validate_fetch_failed].
  destruct (executable w) as [exe|] eqn:X;
    [|by rewrite (InstallationFacts.validate_no_executable _ _ _ _ w info), D].
  destruct (version_stdout w) as [v|] eqn:V;
    [|by rewrite (InstallationFacts.validate_unreadable_version _ _ _ _ w info exe), D
        by auto].
  destruct (semver_lt v (version info)) as [[|]|] eqn:S.
  - by rewrite (InstallationFacts.validate_behind _ _ _ _ w info exe v), D.
  - by rewrite (InstallationFacts.validate_current _ _ _ _ w info exe v).
  - by rewrite (InstallationFacts.validate_unreadable_version _ _ _ _ w info exe), D
      by eauto.
Qed.

(** X16. [validate] never fails because of the installed copy: whatever the
    machine, when [validate] fails the failure is that of the fetch of the
    latest release or one raised by [downloadAndInstall] (no URL, failed
    download, no installer, failed installer), never that the executable was
    not found or that its version could not be read or parsed. *)
Theorem validate_never_fails_on_the_installed_copy w f :
  (validate semver_lt type_name dolphinLaunchType installationFolder w).2 = Failed f ->
  f <> NoExecutable /\ f <> NoStdout /\ f <> InvalidVersion.
Proof.
  assert (D : forall info w0 f0,
    (downloadAndInstall type_name dolphinLaunchType installationFolder
       (Some info) None w0).2 = Failed f0 ->
    f0 <> NoExecutable /\ f0 <> NoStdout /\ f0 <> InvalidVersion).
  { clear. intros info w0 f0. run_install. cbn.
    destruct (downloadUrls info !! platform w0) as [url|]; [|by intros [= <-]].
    destruct (truthy url); [|by intros [= <-]]. cbn.
    destruct (asset w0) as [a|]; cbn; [|by intros [= <-]].
    destruct (String.eqb (platform w0) "win32" || String.eqb (platform w0) "darwin"
              || String.eqb (platform w0) "linux"); cbn; [|by intros [= <-]].
    destruct (installer_ok w0); cbn; [done|by intros [= <-]]. }
  destruct (latest w dolphinLaunchType) as [info|] eqn:L.
  2: { rewrite InstallationFacts.validate_fetch_failed by done. by intros [= <-]. }
  destruct (executable w) as [exe|] eqn:X.
  2: { rewrite (InstallationFacts.validate_no_executable _ _ _ _ w info) by done.
       apply D. }
  destruct (version_stdout w) as [v|] eqn:V.
  2: { rewrite (InstallationFacts.validate_unreadable_version _ _ _ _ w info exe)
         by auto. apply D. }
  destruct (semver_lt v (version info)) as [[|]|] eqn:S.
  - rewrite (InstallationFacts.validate_behind _ _ _ _ w info exe v) by done. apply D.
  - by rewrite (InstallationFacts.validate_current _ _ _ _ w info exe v).
  - rewrite (InstallationFacts.validate_unreadable_version _ _ _ _ w info exe)
      by eauto. apply D.
Qed.






End Class.

(** Checks at concrete machines. *)

Lemma download_without_url_witness :
  downloadAndInstall sample_type_name NETPLAY "/opt/slippi/netplay"
    (Some {| version := "2.3.1"; downloadUrls := {[ "win32" := "https://example.org/w.zip" ]} |})
    (Some true) up_to_date =
  (up_to_date,
   Failed (Error "Could not find latest Dolphin download url for linux")).
Proof.
  apply (download_without_url_does_nothing sample_type_name NETPLAY "/opt/slippi/netplay"
           up_to_date).
  intros url E. vm_compute in E. discriminate E.
Defined.




Lemma nothing_removed_witness :
  removals (downloadAndInstall sample_type_name NETPLAY "/opt/slippi/netplay"
              None None up_to_date).1 = removals up_to_date /\
  removals (validate sample_lt sample_type_name NETPLAY "/opt/slippi/netplay"
              (with_stdout (Some "2.3.0") up_to_date)).1 =
    removals (with_stdout (Some "2.3.0") up_to_date).
Proof.
  split.
  - apply (nothing_removed_without_clean_install sample_lt sample_type_name NETPLAY
             "/opt/slippi/netplay" up_to_date None None). reflexivity.
  - apply (nothing_removed_without_clean_install sample_lt sample_type_name NETPLAY
             "/opt/slippi/netplay" (with_stdout (Some "2.3.0") up_to_date) None None).
    reflexivity.
Defined.

Lemma validate_failure_witness :
  let w := with_asset None (with_executable None up_to_date) in
  (validate sample_lt sample_type_name NETPLAY "/opt/slippi/netplay" w).2 =
    Failed DownloadFailed /\
  DownloadFailed <> NoExecutable /\ DownloadFailed <> NoStdout /\
  DownloadFailed <> InvalidVersion.
Proof.
  cbv zeta.
  assert (F : (validate sample_lt sample_type_name NETPLAY "/opt/slippi/netplay"
                 (with_asset None (with_executable None up_to_date))).2 =
              Failed DownloadFailed).
  { vm_compute. reflexivity. }
  split; [exact F|].
  exact (validate_never_fails_on_the_installed_copy sample_lt sample_type_name NETPLAY
           "/opt/slippi/netplay" _ _ F).
Defined.



End InstallationMore.

(** ** Facts about the Play button *)

Module HeaderFacts.
Import Header.




End HeaderFacts.
